(** * aw-core storage backends: a shallow embedding

    The two storage classes of [aw_datastore/storages] are embedded as
    state-passing functions over explicit database states:

    - [PeeweeStorage] (peewee.py): the relational backend.  The [events],
      [buckets] and [users] tables are lists of rows in table order, the
      [AutoField] sequences are counters, [bucket_keys] is the dictionary
      kept by the storage object.
    - [MongoDBStorage] (mongodb.py): the document store.  The collections
      [db[bucket]["events"]], [db[bucket]["metadata"]] and [db["users"]]
      are kept per name.

    Instants ([datetime]) and elapsed times ([timedelta]) are integers
    counting microseconds, instants from the epoch in UTC; [astimezone]
    and [replace(tzinfo=utc)] leave the instant unchanged and are the
    identity here.  The drivers' encodings of times and durations (the
    interval text, the float of [total_seconds()], BSON dates) are taken
    to be exact. *)

From Stdlib Require Import ZArith Lia Ascii String.
From stdpp Require Import gmap strings list fin_maps sorting.

Local Open Scope Z_scope.

(** ** Python values and exceptions *)

Definition datetime := Z.
Definition timedelta := Z.

(** [timedelta(hours=24)] in microseconds. *)
Definition timedelta_hours (h : Z) : timedelta := h * 3600 * 1000000.

Inductive exn :=
| KeyError (key : string)
| AttributeError
| IndexError
| DoesNotExist
| Exception (msg : string).

Inductive result (A : Type) :=
| Ok (a : A)
| Raise (e : exn).
Arguments Ok {A} a.
Arguments Raise {A} e.

Definition bind {A B} (r : result A) (k : A → result B) : result B :=
  match r with
  | Ok a => k a
  | Raise e => Raise e
  end.

Definition raises {A} (r : result A) : Prop :=
  match r with
  | Ok _ => False
  | Raise _ => True
  end.

(** [d[k]] on a Python dict with string keys. *)
Definition getitem {V} (d : gmap string V) (k : string) : result V :=
  match d !! k with
  | Some v => Ok v
  | None => Raise (KeyError k)
  end.

(** ** Events *)

Module Event.
(** Modelled from the spec: the [Event] class of [aw_core.models], which
    is imported by the storages but is not among the source files.  An
    event has an optional backend-assigned [id], a [timestamp], a
    [duration] and an opaque [data] payload.  The type of identifiers is
    a parameter: the relational backend assigns integers, the document
    store object ids. *)
Record t (Id Data : Type) := make {
  id : option Id;
  timestamp : datetime;
  duration : timedelta;
  data : Data;
}.
Arguments make {Id Data} _ _ _ _.
Arguments id {Id Data} _.
Arguments timestamp {Id Data} _.
Arguments duration {Id Data} _.
Arguments data {Id Data} _.

(** [event.id = i] *)
Definition set_id {Id Data} (i : option Id) (e : t Id Data) : t Id Data :=
  make i (timestamp e) (duration e) (data e).

(** The interval and payload of an event, without its identifier. *)
Definition content {Id Data} (e : t Id Data) : datetime * timedelta * Data :=
  (timestamp e, duration e, data e).
End Event.

(** ** Queries: [ORDER BY ... DESC] and [sort([(key, -1)])]

    Rows with equal keys come out in their stored order; the engines leave
    that order open, the model fixes it. *)

Section OrderBy.
Context {A : Type} (key : A → Z).

Fixpoint insert_desc (x : A) (l : list A) : list A :=
  match l with
  | [] => [x]
  | y :: l' => if key x <? key y then y :: insert_desc x l' else x :: l
  end.

Definition order_by_desc (l : list A) : list A := foldr insert_desc [] l.
End OrderBy.

(** [LIMIT n] and [cursor.limit(n)] for [n > 0]: at most [n] rows. *)
Fixpoint limit_rows {A} (n : Z) (l : list A) : list A :=
  match l with
  | [] => []
  | x :: l' => if 0 <? n then x :: limit_rows (n - 1) l' else []
  end.

(** [chunks(ls, n)]: successive [n]-sized chunks of [ls]; the fuel is the
    number of chunks [range(0, len(ls), n)] can yield. *)
Fixpoint chunks_aux {A} (fuel : nat) (ls : list A) (n : nat) : list (list A) :=
  match fuel with
  | O => []
  | S fuel' =>
      match ls with
      | [] => []
      | _ => take n ls :: chunks_aux fuel' (drop n ls) n
      end
  end.

Definition chunks {A} (ls : list A) (n : nat) : list (list A) :=
  chunks_aux (length ls) ls n.

(** ** Bucket metadata, as both backends report it *)

Module Metadata.
Record t := make {
  id : string;
  created : string;
  name : option string;
  type : string;
  client : string;
  hostname : string;
}.
End Metadata.

(** [{k: v for (k, v) in l}]: a later binding of a key replaces an earlier
    one. *)
Definition dict_of_list {V} (l : list (string * V)) : gmap string V :=
  foldl (λ d kv, <[kv.1 := kv.2]> d) ∅ l.

(** * The relational backend (peewee.py) *)

Module BucketModel.
Record t := make {
  key : Z;
  id : string;
  created : string;
  name : option string;
  type : string;
  client : string;
  hostname : string;
}.

Definition json (self : t) : Metadata.t :=
  Metadata.make (id self) "" (name self) (type self) (client self)
    (hostname self).
End BucketModel.

Module UserModel.
Record t := make {
  id : Z;
  device_id : string;
  name : string;
  email : string;
  access_token : string;
  refresh_token : string;
  last_used_at : option datetime;
}.
End UserModel.

Module EventModel.
(** A row of the [events] table.  [id] is the primary key. *)
Record t := make {
  id : Z;
  bucket : Z;
  timestamp : datetime;
  duration : timedelta;
  datastr : string;
}.

(** The columns of a row still to be inserted. *)
Definition fields : Type := Z * datetime * timedelta * string.

Section Json.
Context {Data : Type} (json_loads : string → Data).

(** The event built from the keywords of [EventModel.json(self)]. *)
Definition to_event (self : t) : Event.t Z Data :=
  Event.make (Some (id self)) (timestamp self) (duration self)
    (json_loads (datastr self)).
End Json.
End EventModel.

Module PeeweeStorage.

Record t := make {
  buckets_table : list BucketModel.t;
  events_table : list EventModel.t;
  users_table : list UserModel.t;
  (** the next value of the [AutoField] sequence of [events] and [users] *)
  events_seq : Z;
  users_seq : Z;
  bucket_keys : gmap string Z;
  cached_buckets : option (gmap string Metadata.t);
  last_cached_ms : Z;
}.

Definition set_events (evs : list EventModel.t) (seq : Z) (self : t) : t :=
  make (buckets_table self) evs (users_table self) seq (users_seq self)
    (bucket_keys self) (cached_buckets self) (last_cached_ms self).

Definition set_users (us : list UserModel.t) (seq : Z) (self : t) : t :=
  make (buckets_table self) (events_table self) us (events_seq self) seq
    (bucket_keys self) (cached_buckets self) (last_cached_ms self).

Definition set_bucket_keys (ks : gmap string Z) (self : t) : t :=
  make (buckets_table self) (events_table self) (users_table self)
    (events_seq self) (users_seq self) ks (cached_buckets self)
    (last_cached_ms self).

Definition update_bucket_keys (self : t) : t :=
  set_bucket_keys
    (dict_of_list
       ((λ b, (BucketModel.id b, BucketModel.key b)) <$> buckets_table self))
    self.

(** The cache of the bucket list is commented out in this backend: every
    call reads the table, and the two cache fields are never written. *)
Definition buckets (self : t) : gmap string Metadata.t :=
  dict_of_list
    ((λ b, (BucketModel.id b, BucketModel.json b)) <$> buckets_table self).

(** *** Statements on the [events] table *)

(** [INSERT INTO events (bucket, timestamp, duration, datastr) VALUES ...]:
    each row takes the next value of the sequence. *)
Fixpoint sql_insert (rows : list EventModel.fields) (tbl : list EventModel.t)
    (seq : Z) : list EventModel.t * Z :=
  match rows with
  | [] => (tbl, seq)
  | (b, ts, d, s) :: rows' =>
      sql_insert rows' (tbl ++ [EventModel.make seq b ts d s]) (seq + 1)
  end.

(** [UPDATE events SET bucket, timestamp, duration, datastr WHERE id = pk] *)
Definition sql_update (pk : Z) (f : EventModel.fields)
    (tbl : list EventModel.t) : list EventModel.t :=
  (λ r, if EventModel.id r =? pk
        then let '(b, ts, d, s) := f in EventModel.make pk b ts d s
        else r) <$> tbl.

(** [Model.save()]: an instance whose primary key is set is written with
    an [UPDATE] on that key, an instance without one is inserted and
    receives the key the sequence assigns.  The result is the key of the
    instance after the call. *)
Definition save (pk : option Z) (f : EventModel.fields) (self : t) : Z * t :=
  match pk with
  | Some k => (k, set_events (sql_update k f (events_table self))
                    (events_seq self) self)
  | None =>
      let '(tbl, seq) := sql_insert [f] (events_table self) (events_seq self) in
      (events_seq self, set_events tbl seq self)
  end.

(** [_where_range]: the conditions added to a query on [events]. *)
Definition _where_range (starttime endtime : option datetime)
    (r : EventModel.t) : bool :=
  match starttime with
  | Some s =>
      (s - timedelta_hours 24 <=? EventModel.timestamp r)
      && (s <=? EventModel.timestamp r + EventModel.duration r)
  | None => true
  end
  && match endtime with
     | Some e => EventModel.timestamp r <=? e
     | None => true
     end.

Definition in_bucket (k : Z) (r : EventModel.t) : bool :=
  EventModel.bucket r =? k.

Section Json.
Context {Data : Type}.
Context (json_dumps : Data → string) (json_loads : string → Data).

Definition Event := Event.t Z Data.

(** [EventModel.from_event(bucket_key, event)], without the primary key *)
Definition from_event (bucket_key : Z) (event : Event) : EventModel.fields :=
  (bucket_key, Event.timestamp event, Event.duration event,
   json_dumps (Event.data event)).

Definition insert_one (self : t) (bucket_id : string) (event : Event)
    : result Event * t :=
  match getitem (bucket_keys self) bucket_id with
  | Raise e => (Raise e, self)
  | Ok k =>
      let '(pk, self') := save (Event.id event) (from_event k event) self in
      (Ok (Event.set_id (Some pk) event), self')
  end.

(** The loop over [events_updates]: it stops at the first exception. *)
Fixpoint insert_each (self : t) (bucket_id : string) (events : list Event)
    : result unit * t :=
  match events with
  | [] => (Ok tt, self)
  | e :: events' =>
      match insert_one self bucket_id e with
      | (Raise x, self') => (Raise x, self')
      | (Ok _, self') => insert_each self' bucket_id events'
      end
  end.

(** The loop over the chunks: one [INSERT] statement for each. *)
Fixpoint insert_chunks (cs : list (list EventModel.fields))
    (tbl : list EventModel.t) (seq : Z) : list EventModel.t * Z :=
  match cs with
  | [] => (tbl, seq)
  | c :: cs' => let '(tbl', seq') := sql_insert c tbl seq in
                insert_chunks cs' tbl' seq'
  end.

Definition has_id (e : Event) : bool := bool_decide (is_Some (Event.id e)).

Definition insert_many (self : t) (bucket_id : string) (events : list Event)
    : result unit * t :=
  let events_updates := filter (λ e, has_id e = true) events in
  match insert_each self bucket_id events_updates with
  | (Raise x, self') => (Raise x, self')
  | (Ok _, self') =>
      match getitem (bucket_keys self') bucket_id with
      | Raise x =>
          (* the lookup is evaluated for each event without an id *)
          if bool_decide (filter (λ e, has_id e = false) events = [])
          then (Ok tt, self') else (Raise x, self')
      | Ok k =>
          let events_dictlist :=
            from_event k <$> filter (λ e, has_id e = false) events in
          let '(tbl, seq) :=
            insert_chunks (chunks events_dictlist 100)
              (events_table self') (events_seq self') in
          (Ok tt, set_events tbl seq self')
      end
  end.

(** [_get_event]: [None] when no row has this key in this bucket. *)
Definition _get_event (self : t) (bucket_id : string) (event_id : Z)
    : result (option EventModel.t) :=
  bind (getitem (bucket_keys self) bucket_id) (λ k,
    Ok (head (filter (λ r, in_bucket k r = true)
                (filter (λ r, EventModel.id r = event_id)
                   (events_table self))))).

(** [_get_last]: [.get()] raises [DoesNotExist] on an empty result. *)
Definition _get_last (self : t) (bucket_id : string)
    : result EventModel.t :=
  bind (getitem (bucket_keys self) bucket_id) (λ k,
    match head (order_by_desc EventModel.timestamp
                  (filter (λ r, in_bucket k r = true) (events_table self)))
    with
    | Some r => Ok r
    | None => Raise DoesNotExist
    end).

(** The three assignments to the fetched row, then [e.save()]. *)
Definition overwrite (e : EventModel.t) (event : Event) (self : t)
    : result Event * t :=
  let '(pk, self') :=
    save (Some (EventModel.id e))
      (from_event (EventModel.bucket e) event) self in
  (Ok (Event.set_id (Some pk) event), self').

Definition replace_last (self : t) (bucket_id : string) (event : Event)
    : result Event * t :=
  match _get_last self bucket_id with
  | Raise x => (Raise x, self)
  | Ok e => overwrite e event self
  end.

(** [delete]: the number of rows removed. *)
Definition delete (self : t) (bucket_id : string) (event_id : Z)
    : result Z * t :=
  match getitem (bucket_keys self) bucket_id with
  | Raise x => (Raise x, self)
  | Ok k =>
      let hit r := bool_decide (EventModel.id r = event_id) && in_bucket k r in
      (Ok (Z.of_nat (length (filter (λ r, hit r = true) (events_table self)))),
       set_events (filter (λ r, hit r = false) (events_table self))
         (events_seq self) self)
  end.

(** [replace]: on a miss [e] is [None] and the first assignment,
    [e.timestamp = ...], raises [AttributeError]. *)
Definition replace (self : t) (bucket_id : string) (event_id : Z)
    (event : Event) : result Event * t :=
  match _get_event self bucket_id event_id with
  | Raise x => (Raise x, self)
  | Ok None => (Raise AttributeError, self)
  | Ok (Some e) => overwrite e event self
  end.

Definition get_event (self : t) (bucket_id : string) (event_id : Z)
    : result (option Event) :=
  bind (_get_event self bucket_id event_id) (λ res,
    Ok (EventModel.to_event json_loads <$> res)).

(** The trimming loop at the end of [get_events], for one event. *)
Definition trim (starttime endtime : option datetime) (e : Event) : Event :=
  let e1 :=
    match starttime with
    | Some s =>
        if Event.timestamp e <? s then
          let e_end := Event.timestamp e + Event.duration e in
          Event.make (Event.id e) s (e_end - s) (Event.data e)
        else e
    | None => e
    end in
  match endtime with
  | Some en =>
      if en <? Event.timestamp e1 + Event.duration e1 then
        Event.make (Event.id e1) (Event.timestamp e1)
          (en - Event.timestamp e1) (Event.data e1)
      else e1
  | None => e1
  end.

(** The rows the query of [get_events] yields: [WHERE], [ORDER BY],
    then [LIMIT]. *)
Definition select_events (self : t) (k limit : Z)
    (starttime endtime : option datetime) : list EventModel.t :=
  let q := order_by_desc EventModel.timestamp
             (filter (λ r, _where_range starttime endtime r = true)
                (filter (λ r, in_bucket k r = true) (events_table self))) in
  if 0 <? limit then limit_rows limit q else q.

Definition get_events (self : t) (bucket_id : string) (limit : Z)
    (starttime endtime : option datetime) : result (list Event) :=
  if limit =? 0 then Ok []
  else
    bind (getitem (bucket_keys self) bucket_id) (λ k,
      let res := select_events self k limit starttime endtime in
      let events := EventModel.to_event json_loads <$> res in
      Ok (trim starttime endtime <$> events)).

Definition get_eventcount (self : t) (bucket_id : string)
    (starttime endtime : option datetime) : result Z :=
  bind (getitem (bucket_keys self) bucket_id) (λ k,
    Ok (Z.of_nat (length
          (filter (λ r, _where_range starttime endtime r = true)
             (filter (λ r, in_bucket k r = true) (events_table self)))))).
End Json.
End PeeweeStorage.

Module PeeweeUsers.
Import PeeweeStorage.

Section Users.
(** [datetime.isoformat()] *)
Context (isoformat : datetime → string).

(** [save_user], run at the instant [now] that [datetime.now] returns. *)
Definition save_user (now : datetime) (self : t)
    (user_data : gmap string string)
    : result (gmap string string) * t :=
  match getitem user_data "email" with
  | Raise x => (Raise x, self)
  | Ok key =>
      let self1 :=
        set_users (filter (λ u, UserModel.email u ≠ key) (users_table self))
          (users_seq self) self in
      let row :=
        bind (getitem user_data "device_id") (λ device_id,
        bind (getitem user_data "name") (λ name,
        bind (getitem user_data "email") (λ email,
        bind (getitem user_data "access_token") (λ access_token,
        bind (getitem user_data "refresh_token") (λ refresh_token,
          Ok (UserModel.make (users_seq self1) device_id name email
                access_token refresh_token (Some now))))))) in
      match row with
      | Raise x => (Raise x, self1)
      | Ok u =>
          (Ok (<["last_used_at" := isoformat now]> user_data),
           set_users (users_table self1 ++ [u]) (users_seq self1 + 1) self1)
      end
  end.

Definition _get_user_by_email (self : t) (email : string)
    : option UserModel.t :=
  head (filter (λ u, UserModel.email u = email) (users_table self)).
End Users.
End PeeweeUsers.

(** * The document store (mongodb.py) *)

Module bson.
(** The identifiers the callers pass around: an [ObjectId], or the text
    [str(ObjectId(oid))] that [get_events] and [get_event] put in
    [event.id]. *)
Inductive id :=
| ObjectId (oid : N)
| Str (oid : N).

#[global] Instance id_eq_dec : EqDecision id.
Proof. solve_decision. Defined.

(** [ObjectId(event_id)] *)
Definition to_ObjectId (i : id) : id :=
  match i with
  | ObjectId oid => ObjectId oid
  | Str oid => ObjectId oid
  end.

(** [str(_id)] *)
Definition str (i : id) : id :=
  match i with
  | ObjectId oid => Str oid
  | Str oid => Str oid
  end.
End bson.

Module EventDoc.
(** A document of [db[bucket]["events"]]: the keys of the event's
    dictionary and the [_id] the driver adds on insertion. *)
Record t (Data : Type) := make {
  _id : bson.id;
  id : option bson.id;
  timestamp : datetime;
  duration : timedelta;
  data : Data;
}.
Arguments make {Data} _ _ _ _ _.
Arguments _id {Data} _.
Arguments id {Data} _.
Arguments timestamp {Data} _.
Arguments duration {Data} _.
Arguments data {Data} _.
End EventDoc.

(** ** Python strings: [s.rfind('.')] and [s[:i]] *)

Fixpoint rfind_from (c : ascii) (l : list ascii) (i last : Z) : Z :=
  match l with
  | [] => last
  | a :: l' => rfind_from c l' (i + 1) (if Ascii.eqb a c then i else last)
  end.

Definition rfind (s : string) (c : ascii) : Z :=
  rfind_from c (list_ascii_of_string s) 0 (-1).

Definition slice_to (s : string) (i : Z) : string :=
  let l := list_ascii_of_string s in
  let stop := if i <? 0 then Z.max 0 (Z.of_nat (length l) + i) else i in
  string_of_list_ascii (take (Z.to_nat stop) l).

(** [time.time()] counts seconds; the clock is read in microseconds. *)
Definition seconds (n : Z) : Z := n * 1000000.

Module MongoDBStorage.

Section Store.
Context {Data : Type}.

Definition Event := Event.t bson.id Data.

Record t := make {
  (** [db[bucket]["events"]], by bucket *)
  db_events : gmap string (list (EventDoc.t Data));
  (** the document [{"_id": "metadata"}] of [db[bucket]["metadata"]] *)
  db_metadata : gmap string Metadata.t;
  (** [db["users"]] *)
  db_users : list (gmap string string);
  (** the next [ObjectId] the driver generates *)
  next_oid : N;
  cached_buckets : option (gmap string Metadata.t);
  last_cached_ms : Z;
}.

Definition set_events (evs : gmap string (list (EventDoc.t Data)))
    (oid : N) (self : t) : t :=
  make evs (db_metadata self) (db_users self) oid (cached_buckets self)
    (last_cached_ms self).

Definition set_users (us : list (gmap string string)) (self : t) : t :=
  make (db_events self) (db_metadata self) us (next_oid self)
    (cached_buckets self) (last_cached_ms self).

Definition set_cache (c : option (gmap string Metadata.t)) (ms : Z)
    (self : t) : t :=
  make (db_events self) (db_metadata self) (db_users self) (next_oid self) c ms.

(** [self.db[bucket_id]["events"]]: a collection never written to is
    empty. *)
Definition collection (self : t) (bucket_id : string)
    : list (EventDoc.t Data) :=
  default [] (db_events self !! bucket_id).

Definition list_collection_names (self : t) : list string :=
  ((λ b, b +:+ ".events") <$> elements (dom (db_events self)))
  ++ ((λ b, b +:+ ".metadata") <$> elements (dom (db_metadata self)))
  ++ ["users"].

Definition get_metadata (self : t) (bucket_id : string)
    : result Metadata.t :=
  match db_metadata self !! bucket_id with
  | Some m => Ok m
  | None => Raise (Exception "Bucket did not exist, could not get metadata")
  end.

(** The body of [buckets] after the test of the cache: the names of the
    collections cut at their last dot, without ["system"] and ["user"],
    each mapped to its metadata when [get_metadata] does not raise. *)
Definition enumerate (self : t) : gmap string Metadata.t :=
  let bucketnames : gset string :=
    list_to_set
      ((λ bucket_coll, slice_to bucket_coll (rfind bucket_coll "."))
         <$> list_collection_names self) in
  let bucketnames := bucketnames ∖ {["system"]} ∖ {["user"]} in
  foldl (λ buckets bucket_id,
           match get_metadata self bucket_id with
           | Ok m => <[bucket_id := m]> buckets
           | Raise _ => buckets
           end) ∅ (elements bucketnames).

(** [buckets]: [now] is the clock read by the test, [now'] the clock
    read when the cache is stamped. *)
Definition buckets (now now' : Z) (self : t)
    : option (gmap string Metadata.t) * t :=
  if now - last_cached_ms self <? seconds 6000 then
    (cached_buckets self, self)
  else
    let buckets := enumerate self in
    (Some buckets, set_cache (Some buckets) now' self).

(** The filter [{"timestamp": {"$gte": starttime, "$lte": endtime}}]. *)
Definition query_filter (starttime endtime : option datetime)
    (d : EventDoc.t Data) : bool :=
  match starttime with
  | Some s => s <=? EventDoc.timestamp d
  | None => true
  end
  && match endtime with
     | Some e => EventDoc.timestamp d <=? e
     | None => true
     end.

(** The loop of [get_events] and the body of [get_event]: [_id] is
    popped and its text becomes the [id] of the event. *)
Definition to_event (d : EventDoc.t Data) : Event :=
  Event.make (Some (bson.str (EventDoc._id d))) (EventDoc.timestamp d)
    (EventDoc.duration d) (EventDoc.data d).

Definition get_events (self : t) (bucket_id : string) (limit : Z)
    (starttime endtime : option datetime) : list Event :=
  if limit =? 0 then []
  else
    let limit := if limit <? 0 then 10 ^ 9 else limit in
    let ds_events :=
      limit_rows limit
        (order_by_desc EventDoc.timestamp
           (filter (λ d, query_filter starttime endtime d = true)
              (collection self bucket_id))) in
    to_event <$> ds_events.

Definition get_event (self : t) (bucket_id : string) (event_id : bson.id)
    : option Event :=
  to_event <$>
    head (filter (λ d, EventDoc._id d = event_id) (collection self bucket_id)).

Definition get_eventcount (self : t) (bucket_id : string)
    (starttime endtime : option datetime) : Z :=
  Z.of_nat (length (filter (λ d, query_filter starttime endtime d = true)
                      (collection self bucket_id))).

(** [self._transform_event(event.copy())] with the [_id] the driver
    gives it. *)
Definition to_doc (oid : bson.id) (event : Event) : EventDoc.t Data :=
  EventDoc.make oid (Event.id event) (Event.timestamp event)
    (Event.duration event) (Event.data event).

Definition insert_one (self : t) (bucket : string) (event : Event)
    : Event * t :=
  let inserted_id := bson.ObjectId (next_oid self) in
  (Event.set_id (Some inserted_id) event,
   set_events
     (<[bucket := collection self bucket ++ [to_doc inserted_id event]]>
        (db_events self))
     (N.succ (next_oid self)) self).

(** The documents of [insert_many], each with a fresh [_id]. *)
Fixpoint to_docs (oid : N) (events : list Event) : list (EventDoc.t Data) :=
  match events with
  | [] => []
  | e :: events' => to_doc (bson.ObjectId oid) e :: to_docs (N.succ oid) events'
  end.

(** [insert_many]: the driver refuses an empty list of documents. *)
Definition insert_many (self : t) (bucket : string) (events : list Event)
    : result unit * t :=
  match events with
  | [] => (Raise (Exception "documents must be a non-empty list"), self)
  | _ =>
      (Ok tt,
       set_events
         (<[bucket := collection self bucket ++ to_docs (next_oid self) events]>
            (db_events self))
         (next_oid self + N.of_nat (length events))%N self)
  end.

(** [delete_one(filter)]: the first matching document is removed. *)
Fixpoint delete_one (P : EventDoc.t Data → bool) (l : list (EventDoc.t Data))
    : list (EventDoc.t Data) * Z :=
  match l with
  | [] => ([], 0)
  | d :: l' => if P d then (l', 1)
               else let '(l'', n) := delete_one P l' in (d :: l'', n)
  end.

(** [replace_one(filter, doc)] without [upsert]: the first matching
    document is replaced and keeps its [_id]; a miss changes nothing. *)
Fixpoint replace_one (P : EventDoc.t Data → bool) (event : Event)
    (l : list (EventDoc.t Data)) : list (EventDoc.t Data) :=
  match l with
  | [] => []
  | d :: l' => if P d then to_doc (EventDoc._id d) event :: l'
               else d :: replace_one P event l'
  end.

Definition has_id (i : bson.id) (d : EventDoc.t Data) : bool :=
  bool_decide (EventDoc._id d = i).

Definition delete (self : t) (bucket_id : string) (event_id : bson.id)
    : bool * t :=
  let '(l, deleted_count) :=
    delete_one (has_id (bson.to_ObjectId event_id))
      (collection self bucket_id) in
  (1 <=? deleted_count,
   if 1 <=? deleted_count
   then set_events (<[bucket_id := l]> (db_events self)) (next_oid self) self
   else self).

Definition replace_last (self : t) (bucket_id : string) (event : Event)
    : result unit * t :=
  match head (limit_rows 1 (order_by_desc EventDoc.timestamp
                              (collection self bucket_id))) with
  | None => (Raise IndexError, self)
  | Some last_event =>
      (Ok tt,
       set_events
         (<[bucket_id := replace_one (has_id (EventDoc._id last_event)) event
                           (collection self bucket_id)]> (db_events self))
         (next_oid self) self)
  end.

Definition replace (self : t) (bucket_id : string) (event_id : bson.id)
    (event : Event) : (bool * Event) * t :=
  let l := collection self bucket_id in
  let l' := replace_one (has_id event_id) event l in
  ((true, Event.set_id (Some event_id) event),
   if bool_decide (Exists (λ d, has_id event_id d = true) l)
   then set_events (<[bucket_id := l']> (db_events self)) (next_oid self) self
   else self).

Definition save_user (self : t) (user_data : gmap string string)
    : result (gmap string string) * t :=
  match getitem user_data "email" with
  | Raise x => (Raise x, self)
  | Ok email =>
      let kept := filter (λ u, u !! "email" ≠ Some email) (db_users self) in
      (Ok user_data, set_users (kept ++ [user_data]) self)
  end.
End Store.
Arguments t : clear implicits.
End MongoDBStorage.

(** * The time model, in the words of the specification *)

(** Follows the spec's words (section 4.1), not the code: an event overlaps
    the query range iff [timestamp <= end], when [end] is given, and
    [timestamp + duration >= start], when [start] is given. *)
Definition spec_overlaps (starttime endtime : option datetime)
    (timestamp : datetime) (duration : timedelta) : bool :=
  match endtime with
  | Some e => timestamp <=? e
  | None => true
  end
  && match starttime with
     | Some s => s <=? timestamp + duration
     | None => true
     end.

(** Follows the spec's words (section 8): a returned event lies inside the
    bounds that are given. *)
Definition spec_clipped {Id Data} (starttime endtime : option datetime)
    (e : Event.t Id Data) : Prop :=
  (∀ s, starttime = Some s → s ≤ Event.timestamp e)
  ∧ (∀ en, endtime = Some en → Event.timestamp e + Event.duration e ≤ en).

(** What [_where_range] asks of a row: the overlap test and, when a start
    is given, the guard of 24 hours. *)
Definition peewee_selects (starttime endtime : option datetime)
    (r : EventModel.t) : Prop :=
  (∀ en, endtime = Some en → EventModel.timestamp r ≤ en)
  ∧ (∀ st, starttime = Some st →
           st ≤ EventModel.timestamp r + EventModel.duration r
           ∧ st - timedelta_hours 24 ≤ EventModel.timestamp r).

(** The rows that [get_events] and [get_eventcount] both start from. *)
Definition selected_rows (self : PeeweeStorage.t) (k : Z)
    (starttime endtime : option datetime) : list EventModel.t :=
  filter (λ r, PeeweeStorage._where_range starttime endtime r = true)
    (filter (λ r, PeeweeStorage.in_bucket k r = true)
       (PeeweeStorage.events_table self)).

(** The rows an [INSERT] of [rows] creates when the sequence stands at
    [seq]. *)
Fixpoint number_rows (seq : Z) (rows : list EventModel.fields)
    : list EventModel.t :=
  match rows with
  | [] => []
  | (b, ts, d, s) :: rows' =>
      EventModel.make seq b ts d s :: number_rows (seq + 1) rows'
  end.

(** The number of events a bucket of the relational backend holds. *)
Definition bucket_size (k : Z) (tbl : list EventModel.t) : nat :=
  length (filter (λ r, PeeweeStorage.in_bucket k r = true) tbl).

(** * Invariants of the stores *)

(** The primary key of [events] comes from a sequence: the keys in the
    table are distinct and below the next value of the sequence. *)
Definition peewee_wf (self : PeeweeStorage.t) : Prop :=
  NoDup (EventModel.id <$> PeeweeStorage.events_table self)
  ∧ ∀ r, r ∈ PeeweeStorage.events_table self →
         EventModel.id r < PeeweeStorage.events_seq self.

(** The [_id]s of a collection are distinct object ids the driver has
    already generated. *)
Definition mongo_wf {Data} (self : MongoDBStorage.t Data) (bucket_id : string)
    : Prop :=
  NoDup (EventDoc._id <$> MongoDBStorage.collection self bucket_id)
  ∧ ∀ d, d ∈ MongoDBStorage.collection self bucket_id →
         ∃ n, EventDoc._id d = bson.ObjectId n
              ∧ (n < MongoDBStorage.next_oid self)%N.

(** * Sample stores

    The bucket ["b1"] of the specification's scenario, with the events
    [E1{t=100,d=10}] and [E2{t=200,d=5}], on both backends.  The payload is
    its JSON text and the codec the identity. *)

Module Sample.
Definition b1 : BucketModel.t :=
  BucketModel.make 1 "b1" "2024-01-01" None "afk" "test" "host".
Definition b2 : BucketModel.t :=
  BucketModel.make 2 "b2" "2024-01-01" None "afk" "test" "host".

Definition dumps (d : string) : string := d.
Definition loads (s : string) : string := s.

Definition peewee0 : PeeweeStorage.t :=
  PeeweeStorage.update_bucket_keys
    (PeeweeStorage.make [b1; b2] [] [] 1 1 ∅ None 0).

Definition E1 {Id} : Event.t Id string := Event.make None 100 10 "{}"%string.
Definition E2 {Id} : Event.t Id string := Event.make None 200 5 "{}"%string.

Definition peewee1 : PeeweeStorage.t :=
  (PeeweeStorage.insert_many dumps peewee0 "b1" [E1; E2]).2.

Definition mongo0 : MongoDBStorage.t string :=
  MongoDBStorage.make ∅ ∅ [] 0%N None 0.

Definition mongo1 : MongoDBStorage.t string :=
  (MongoDBStorage.insert_many mongo0 "b1" [E1; E2]).2.

(** An event that lasts two days, from the epoch. *)
Definition long_row : EventModel.t :=
  EventModel.make 1 1 0 (timedelta_hours 48) "{}".

Definition peewee_long : PeeweeStorage.t :=
  PeeweeStorage.set_events [long_row] 2 peewee0.

Definition user (name token : string) : gmap string string :=
  <["device_id" := "d1"%string]>
    (<["name" := name]>
       (<["email" := "a@example.org"%string]>
          (<["access_token" := token]>
             (<["refresh_token" := "r"%string]> ∅)))).

Definition isoformat (t : datetime) : string := "now".
End Sample.

(** * Bucket lifecycle and user queries

    The operations of the two storages that create, describe and delete
    buckets, and the queries on the [users] table. *)

Module PeeweeDirectory.
Import PeeweeStorage.

Definition set_buckets (bs : list BucketModel.t) (self : t) : t :=
  make bs (events_table self) (users_table self) (events_seq self)
    (users_seq self) (bucket_keys self) (cached_buckets self)
    (last_cached_ms self).

(** [create_bucket]: [BucketModel.create] inserts a row whose [key] is the
    value the sequence of the table hands out, here the argument [key];
    the primary key and the unique column [id] make the insertion fail
    with an integrity error when either is taken.  The dictionary of keys
    is then read again. *)
Definition create_bucket (key : Z) (self : t)
    (bucket_id type_id client hostname created : string)
    (name : option string) : result unit * t :=
  if bool_decide (bucket_id ∈ BucketModel.id <$> buckets_table self)
     || bool_decide (key ∈ BucketModel.key <$> buckets_table self)
  then (Raise (Exception "IntegrityError"), self)
  else
    (Ok tt,
     update_bucket_keys
       (set_buckets
          (buckets_table self
           ++ [BucketModel.make key bucket_id created name type_id client
                 hostname])
          self)).

(** [delete_bucket]: the events of the bucket, then its row, then the
    dictionary of keys. *)
Definition delete_bucket (self : t) (bucket_id : string) : result unit * t :=
  match bucket_keys self !! bucket_id with
  | Some k =>
      (Ok tt,
       update_bucket_keys
         (set_buckets
            (filter (λ b, BucketModel.key b ≠ k) (buckets_table self))
            (set_events
               (filter (λ r, EventModel.bucket r ≠ k) (events_table self))
               (events_seq self) self)))
  | None => (Raise (Exception "Bucket did not exist, could not delete"), self)
  end.

(** [get_metadata]: [BucketModel.get] raises [DoesNotExist] when no row
    has the key. *)
Definition get_metadata (self : t) (bucket_id : string) : result Metadata.t :=
  match bucket_keys self !! bucket_id with
  | Some k =>
      match head (filter (λ b, BucketModel.key b = k) (buckets_table self)) with
      | Some b => Ok (BucketModel.json b)
      | None => Raise DoesNotExist
      end
  | None => Raise (Exception "Bucket did not exist, could not get metadata")
  end.

(** [get_user]: the record of the user, or the text of [json.dumps({})]. *)
Definition get_user (self : t) (filter : gmap string string)
    : result (UserModel.t + string) :=
  bind (getitem filter "email") (λ email,
    match PeeweeUsers._get_user_by_email self email with
    | Some u => Ok (inl u)
    | None => Ok (inr "{}"%string)
    end).

Definition get_all_users (self : t) : list UserModel.t := users_table self.
End PeeweeDirectory.

Module MongoDirectory.
Import MongoDBStorage.

Section Store.
Context {Data : Type}.

Definition set_db (evs : gmap string (list (EventDoc.t Data)))
    (md : gmap string Metadata.t) (self : t Data) : t Data :=
  make evs md (db_users self) (next_oid self) (cached_buckets self)
    (last_cached_ms self).

(** [create_bucket]: a missing or empty [name] is replaced by the bucket
    id; the document has the fixed [_id] ["metadata"], so a second
    insertion into the same collection is a duplicate key. *)
Definition create_bucket (self : t Data)
    (bucket_id type_id client hostname created : string)
    (name : option string) : result unit * t Data :=
  let name :=
    match name with
    | Some n => if bool_decide (n = ""%string) then bucket_id else n
    | None => bucket_id
    end in
  match db_metadata self !! bucket_id with
  | Some _ => (Raise (Exception "DuplicateKeyError"), self)
  | None =>
      (Ok tt,
       set_db (db_events self)
         (<[bucket_id := Metadata.make bucket_id created (Some name) type_id
                           client hostname]> (db_metadata self))
         self)
  end.

(** [delete_bucket]: both collections of the bucket are dropped when its
    metadata collection is listed. *)
Definition delete_bucket (self : t Data) (bucket_id : string)
    : result unit * t Data :=
  if bool_decide (bucket_id +:+ ".metadata" ∈ list_collection_names self)
  then
    (Ok tt,
     set_db (base.delete bucket_id (db_events self))
       (base.delete bucket_id (db_metadata self)) self)
  else (Raise (Exception "Bucket did not exist, could not delete"), self).
End Store.
End MongoDirectory.

(** Follows the interval arithmetic of the trimming loop: the intersection
    of the interval of an event with the range of the query. *)
Definition clip_start (starttime : option datetime) (t : datetime) : datetime :=
  match starttime with
  | Some s => Z.max s t
  | None => t
  end.

Definition clip_end (endtime : option datetime) (t : datetime) : datetime :=
  match endtime with
  | Some e => Z.min e t
  | None => t
  end.

(** Descending order of timestamps, ties allowed. *)
Definition descending {A} (key : A → Z) (l : list A) : Prop :=
  StronglySorted (λ x y, key y ≤ key x) l.

(** The table of buckets respects its two unique columns, and
    [bucket_keys] is the dictionary [update_bucket_keys] reads from it. *)
Definition peewee_buckets_wf (self : PeeweeStorage.t) : Prop :=
  NoDup (BucketModel.id <$> PeeweeStorage.buckets_table self)
  ∧ NoDup (BucketModel.key <$> PeeweeStorage.buckets_table self)
  ∧ PeeweeStorage.bucket_keys self
    = PeeweeStorage.bucket_keys (PeeweeStorage.update_bucket_keys self).

(** * Facts about the queries *)

Section OrderByFacts.
Context {A : Type} (key : A → Z).

Lemma insert_desc_perm (x : A) (l : list A) :
  insert_desc key x l ≡ₚ x :: l.
Proof.
  induction l as [|y l IH]; simpl; [done|].
  destruct (key x <? key y); [|done].
  rewrite IH. apply Permutation_swap.
Qed.

Lemma order_by_desc_perm (l : list A) : order_by_desc key l ≡ₚ l.
Proof.
  induction l as [|x l IH]; simpl; [done|].
  rewrite insert_desc_perm. by rewrite IH.
Qed.

Lemma elem_of_order_by_desc (x : A) (l : list A) :
  x ∈ order_by_desc key l ↔ x ∈ l.
Proof. by rewrite order_by_desc_perm. Qed.

Lemma length_order_by_desc (l : list A) :
  length (order_by_desc key l) = length l.
Proof. by rewrite order_by_desc_perm. Qed.

(** The first row of a descending order has the greatest key. *)
Lemma head_order_by_desc_max (l : list A) (h : A) :
  head (order_by_desc key l) = Some h → ∀ y, y ∈ l → key y ≤ key h.
Proof.
  revert h. induction l as [|x l IH]; intros h Hh y Hy.
  - by apply elem_of_nil in Hy.
  - simpl in Hh.
    assert (Hl : ∀ z, z ∈ l → z ∈ order_by_desc key l)
      by (intros z; by rewrite elem_of_order_by_desc).
    destruct (order_by_desc key l) as [|h0 t] eqn:Hs; simpl in Hh.
    + inversion Hh; subst. apply elem_of_cons in Hy as [->|Hy]; [lia|].
      apply Hl in Hy. by apply elem_of_nil in Hy.
    + destruct (key x <? key h0) eqn:Hlt; simpl in Hh; inversion Hh; subst.
      * apply Z.ltb_lt in Hlt.
        apply elem_of_cons in Hy as [->|Hy]; [lia|]. by apply IH.
      * apply Z.ltb_ge in Hlt.
        apply elem_of_cons in Hy as [->|Hy]; [lia|].
        specialize (IH h0 eq_refl y Hy). lia.
Qed.

Lemma head_order_by_desc_is_Some (l : list A) :
  l ≠ [] → is_Some (head (order_by_desc key l)).
Proof.
  intros Hl. destruct (order_by_desc key l) eqn:Hs; [|by eexists].
  apply (f_equal length) in Hs. rewrite length_order_by_desc in Hs.
  by destruct l.
Qed.
End OrderByFacts.

Lemma limit_rows_take {A} (n : Z) (l : list A) :
  limit_rows n l = take (Z.to_nat n) l.
Proof.
  revert n. induction l as [|x l IH]; intros n; simpl.
  - by rewrite take_nil.
  - destruct (0 <? n) eqn:Hn.
    + apply Z.ltb_lt in Hn. rewrite IH.
      replace (Z.to_nat n) with (S (Z.to_nat (n - 1))) by lia. done.
    + apply Z.ltb_ge in Hn. by replace (Z.to_nat n) with O by lia.
Qed.

Lemma elem_of_limit_rows {A} (n : Z) (l : list A) (x : A) :
  x ∈ limit_rows n l → x ∈ l.
Proof. rewrite limit_rows_take. apply subseteq_take. Qed.

(** * The range query of the relational backend *)

Section PeeweeRange.
Import PeeweeStorage.
Context {Data : Type} (json_loads : string → Data).

Lemma where_range_spec (starttime endtime : option datetime)
    (r : EventModel.t) :
  _where_range starttime endtime r = true
  ↔ peewee_selects starttime endtime r.
Proof.
  unfold _where_range, peewee_selects. rewrite andb_true_iff. split.
  - intros [Hs He]. split.
    + intros en ->. by apply Z.leb_le in He.
    + intros st ->. apply andb_true_iff in Hs as [H1 H2].
      apply Z.leb_le in H1, H2. lia.
  - intros [He Hs]. split.
    + destruct starttime as [st|]; [|done].
      destruct (Hs st eq_refl).
      apply andb_true_iff; split; apply Z.leb_le; lia.
    + destruct endtime as [en|]; [|done].
      apply Z.leb_le. by apply He.
Qed.

Lemma in_bucket_spec (k : Z) (r : EventModel.t) :
  in_bucket k r = true ↔ EventModel.bucket r = k.
Proof. unfold in_bucket. apply Z.eqb_eq. Qed.

Lemma elem_of_selected_rows self k starttime endtime r :
  r ∈ selected_rows self k starttime endtime
  ↔ r ∈ events_table self ∧ EventModel.bucket r = k
    ∧ peewee_selects starttime endtime r.
Proof.
  unfold selected_rows.
  rewrite !list_elem_of_filter, where_range_spec, in_bucket_spec.
  tauto.
Qed.

Lemma selected_rows_sublist self k starttime endtime :
  selected_rows self k starttime endtime `sublist_of` events_table self.
Proof.
  unfold selected_rows.
  etrans; apply sublist_filter.
Qed.

Lemma trim_id starttime endtime (e : Event.t Z Data) :
  Event.id (trim starttime endtime e) = Event.id e.
Proof.
  unfold trim.
  destruct starttime as [s|], endtime as [en|]; simpl;
    repeat (match goal with |- context [if ?b then _ else _] =>
              destruct b end; simpl); done.
Qed.

Lemma trim_data starttime endtime (e : Event.t Z Data) :
  Event.data (trim starttime endtime e) = Event.data e.
Proof.
  unfold trim.
  destruct starttime as [s|], endtime as [en|]; simpl;
    repeat (match goal with |- context [if ?b then _ else _] =>
              destruct b end; simpl); done.
Qed.

(** Trimming puts every event inside the bounds that are given. *)
Lemma trim_clipped starttime endtime (e : Event.t Z Data) :
  spec_clipped starttime endtime (trim starttime endtime e).
Proof.
  unfold spec_clipped, trim.
  destruct starttime as [s|], endtime as [en|]; simpl; split;
    intros ? [= <-];
    try destruct (Z.ltb_spec (Event.timestamp e) s); simpl;
    repeat (match goal with |- context [if ?a <? ?b then _ else _] =>
              destruct (Z.ltb_spec a b) end; simpl); lia.
Qed.

Lemma get_events_unlimited self bucket_id k limit starttime endtime :
  bucket_keys self !! bucket_id = Some k → limit < 0 →
  get_events json_loads self bucket_id limit starttime endtime
  = Ok (trim starttime endtime <$>
          (EventModel.to_event json_loads <$>
             order_by_desc EventModel.timestamp
               (selected_rows self k starttime endtime))).
Proof.
  intros Hk Hl. unfold get_events, getitem, select_events.
  destruct (Z.eqb_spec limit 0); [lia|]. rewrite Hk. simpl.
  destruct (Z.ltb_spec 0 limit); [lia|]. done.
Qed.

Lemma get_eventcount_selected self bucket_id k starttime endtime :
  bucket_keys self !! bucket_id = Some k →
  get_eventcount self bucket_id starttime endtime
  = Ok (Z.of_nat (length (selected_rows self k starttime endtime))).
Proof. intros Hk. unfold get_eventcount, getitem. by rewrite Hk. Qed.
End PeeweeRange.

(** C2, as stated, fails on the relational backend: the two-day event of
    [Sample.peewee_long] overlaps the range that starts 30 hours after the
    epoch, and neither [get_events] nor [get_eventcount] selects it. *)
Lemma overlap_not_selected :
  let r := Sample.long_row in
  let start := Some (timedelta_hours 30) in
  spec_overlaps start None (EventModel.timestamp r) (EventModel.duration r)
  = true
  ∧ PeeweeStorage._where_range start None r = false
  ∧ PeeweeStorage.get_events Sample.loads Sample.peewee_long "b1" (-1)
      start None = Ok []
  ∧ PeeweeStorage.get_eventcount Sample.peewee_long "b1" start None = Ok 0.
Proof. vm_compute. done. Qed.

(** C2 (amended): on the relational backend, [get_events] without a limit
    and [get_eventcount] select the same rows of the bucket, and a row is
    selected iff [timestamp <= end], when [end] is given, and, when [start]
    is given, [timestamp + duration >= start] and
    [timestamp >= start - 24h].  With both bounds omitted every row of the
    bucket is selected. *)
Theorem where_range_selects {Data} (json_loads : string → Data)
    (self : PeeweeStorage.t) (bucket_id : string) (k limit : Z)
    (starttime endtime : option datetime) :
  PeeweeStorage.bucket_keys self !! bucket_id = Some k →
  limit < 0 →
  ∃ rows evs,
    rows `sublist_of` PeeweeStorage.events_table self
    ∧ (∀ r, r ∈ rows ↔ r ∈ PeeweeStorage.events_table self
                        ∧ EventModel.bucket r = k
                        ∧ peewee_selects starttime endtime r)
    ∧ (starttime = None → endtime = None →
       ∀ r, r ∈ rows ↔ r ∈ PeeweeStorage.events_table self
                        ∧ EventModel.bucket r = k)
    ∧ PeeweeStorage.get_events json_loads self bucket_id limit
        starttime endtime = Ok evs
    ∧ Event.id <$> evs ≡ₚ (λ r, Some (EventModel.id r)) <$> rows
    ∧ PeeweeStorage.get_eventcount self bucket_id starttime endtime
      = Ok (Z.of_nat (length rows)).
Proof.
  intros Hk Hl.
  exists (selected_rows self k starttime endtime). eexists.
  split; [apply selected_rows_sublist|].
  split; [apply elem_of_selected_rows|].
  split.
  { intros -> -> r. rewrite elem_of_selected_rows.
    unfold peewee_selects. split; [tauto|].
    intros [? ?]. repeat split; try done; intros ? [=]. }
  split; [by apply get_events_unlimited|].
  split; [|by apply get_eventcount_selected].
  rewrite <- !list_fmap_compose.
  rewrite (order_by_desc_perm EventModel.timestamp).
  apply Permutation_refl'. apply list_fmap_ext.
  intros i r _. simpl. by rewrite trim_id.
Qed.

Lemma where_range_selects_witness :
  ∃ rows evs,
    rows `sublist_of` PeeweeStorage.events_table Sample.peewee1
    ∧ (∀ r, r ∈ rows ↔ r ∈ PeeweeStorage.events_table Sample.peewee1
                        ∧ EventModel.bucket r = 1
                        ∧ peewee_selects (Some 105) (Some 150) r)
    ∧ (Some 105 = None → Some 150 = None →
       ∀ r, r ∈ rows ↔ r ∈ PeeweeStorage.events_table Sample.peewee1
                        ∧ EventModel.bucket r = 1)
    ∧ PeeweeStorage.get_events Sample.loads Sample.peewee1 "b1" (-1)
        (Some 105) (Some 150) = Ok evs
    ∧ Event.id <$> evs ≡ₚ (λ r, Some (EventModel.id r)) <$> rows
    ∧ PeeweeStorage.get_eventcount Sample.peewee1 "b1" (Some 105) (Some 150)
      = Ok (Z.of_nat (length rows)).
Proof.
  apply (where_range_selects Sample.loads Sample.peewee1 "b1" 1 (-1)
           (Some 105) (Some 150)).
  - reflexivity.
  - lia.
Defined.

(** C10: on the relational backend a row whose timestamp lies more than
    24 hours before [start] fails [_where_range], whatever its duration:
    [get_events] and [get_eventcount] answer as if the row were not
    stored. *)
Theorem where_range_day_guard {Data} (json_loads : string → Data)
    (self : PeeweeStorage.t) (tbl1 tbl2 : list EventModel.t)
    (r : EventModel.t) (bucket_id : string) (limit : Z)
    (start : datetime) (endtime : option datetime) :
  PeeweeStorage.events_table self = tbl1 ++ r :: tbl2 →
  EventModel.timestamp r < start - timedelta_hours 24 →
  let without :=
    PeeweeStorage.set_events (tbl1 ++ tbl2) (PeeweeStorage.events_seq self)
      self in
  PeeweeStorage._where_range (Some start) endtime r = false
  ∧ PeeweeStorage.get_events json_loads self bucket_id limit
      (Some start) endtime
    = PeeweeStorage.get_events json_loads without bucket_id limit
        (Some start) endtime
  ∧ PeeweeStorage.get_eventcount self bucket_id (Some start) endtime
    = PeeweeStorage.get_eventcount without bucket_id (Some start) endtime.
Proof.
  intros Htbl Hts without.
  assert (Hr : PeeweeStorage._where_range (Some start) endtime r = false).
  { unfold PeeweeStorage._where_range.
    destruct (Z.leb_spec (start - timedelta_hours 24) (EventModel.timestamp r));
      [lia|done]. }
  assert (Hsel : ∀ k,
    filter (λ r, PeeweeStorage._where_range (Some start) endtime r = true)
      (filter (λ r, PeeweeStorage.in_bucket k r = true)
         (PeeweeStorage.events_table self))
    = filter (λ r, PeeweeStorage._where_range (Some start) endtime r = true)
        (filter (λ r, PeeweeStorage.in_bucket k r = true)
           (PeeweeStorage.events_table without))).
  { intros k. simpl. rewrite Htbl, !filter_app. f_equal.
    rewrite filter_cons. case_decide; [|done].
    rewrite filter_cons_False; [done|]. by rewrite Hr. }
  split; [done|]. split.
  - unfold PeeweeStorage.get_events, PeeweeStorage.select_events.
    destruct (limit =? 0); [done|]. simpl.
    destruct (getitem _ _); simpl; [|done]. by rewrite Hsel.
  - unfold PeeweeStorage.get_eventcount. simpl.
    destruct (getitem _ _); simpl; [|done]. by rewrite Hsel.
Qed.

Lemma where_range_day_guard_witness :
  spec_overlaps (Some (timedelta_hours 30)) None
    (EventModel.timestamp Sample.long_row)
    (EventModel.duration Sample.long_row) = true
  ∧ let without := PeeweeStorage.set_events ([] ++ []) 2 Sample.peewee_long in
    PeeweeStorage._where_range (Some (timedelta_hours 30)) None
      Sample.long_row = false
    ∧ PeeweeStorage.get_events Sample.loads Sample.peewee_long "b1" (-1)
        (Some (timedelta_hours 30)) None
      = PeeweeStorage.get_events Sample.loads without "b1" (-1)
          (Some (timedelta_hours 30)) None
    ∧ PeeweeStorage.get_eventcount Sample.peewee_long "b1"
        (Some (timedelta_hours 30)) None
      = PeeweeStorage.get_eventcount without "b1"
          (Some (timedelta_hours 30)) None.
Proof.
  split; [reflexivity|].
  apply (where_range_day_guard Sample.loads Sample.peewee_long [] []
           Sample.long_row "b1" (-1) (timedelta_hours 30) None).
  - reflexivity.
  - vm_compute. reflexivity.
Defined.

(** * Clipping *)

(** On the relational backend every returned event lies inside the bounds
    that are given, and carries the payload of its row. *)
Lemma peewee_get_events_clipped {Data} (json_loads : string → Data)
    (self : PeeweeStorage.t) (bucket_id : string) (limit : Z)
    (starttime endtime : option datetime) (evs : list (Event.t Z Data)) :
  PeeweeStorage.get_events json_loads self bucket_id limit starttime endtime
  = Ok evs →
  ∀ ev, ev ∈ evs →
    spec_clipped starttime endtime ev
    ∧ ∃ r, r ∈ PeeweeStorage.events_table self
           ∧ Event.id ev = Some (EventModel.id r)
           ∧ Event.data ev = json_loads (EventModel.datastr r).
Proof.
  unfold PeeweeStorage.get_events. intros Hget ev Hev.
  destruct (limit =? 0).
  { injection Hget as <-. by apply elem_of_nil in Hev. }
  destruct (getitem _ _) as [k|]; simpl in Hget; [|done].
  injection Hget as <-.
  apply list_elem_of_fmap in Hev as (e0 & -> & He0).
  apply list_elem_of_fmap in He0 as (r & -> & Hr).
  split; [apply trim_clipped|].
  exists r. rewrite trim_id, trim_data. split; [|done].
  unfold PeeweeStorage.select_events in Hr.
  assert (Hin : r ∈ order_by_desc EventModel.timestamp
                  (selected_rows self k starttime endtime)).
  { destruct (0 <? limit); [by apply elem_of_limit_rows in Hr|done]. }
  apply elem_of_order_by_desc, elem_of_selected_rows in Hin. tauto.
Qed.

(** C3 at the failing input: the document store returns [E2{t=200,d=5}]
    for the range that ends at 203 as it is stored, reaching past the end
    of the range; the relational backend trims it to [{t=200,d=3}]. *)
Theorem mongo_get_events_unclipped :
  let E2 := Event.make (Some (bson.Str 1)) 200 5 "{}"%string in
  MongoDBStorage.get_events Sample.mongo1 "b1" (-1) (Some 150) (Some 203)
  = [E2]
  ∧ ¬ spec_clipped (Some 150) (Some 203) E2
  ∧ PeeweeStorage.get_events Sample.loads Sample.peewee1 "b1" (-1)
      (Some 150) (Some 203)
    = Ok [Event.make (Some 2) 200 3 "{}"%string].
Proof.
  split; [by vm_compute|]. split; [|by vm_compute].
  intros [_ Hend]. specialize (Hend 203 eq_refl). simpl in Hend. lia.
Qed.

(** C1 at the failing input, the specification's own scenario: for the
    range [105, 150] the relational backend returns [E1] trimmed to
    [{t=105,d=5}], the document store, which compares the timestamp alone
    with both bounds, returns nothing. *)
Theorem get_events_backends_differ :
  PeeweeStorage.get_events Sample.loads Sample.peewee1 "b1" (-1)
    (Some 105) (Some 150)
  = Ok [Event.make (Some 1) 105 5 "{}"%string]
  ∧ MongoDBStorage.get_events Sample.mongo1 "b1" (-1) (Some 105) (Some 150)
    = [].
Proof. split; by vm_compute. Qed.

(** * Overwriting one event *)

Section PeeweeUpdate.
Import PeeweeStorage.

Lemma sql_update_absent (pk : Z) (f : EventModel.fields)
    (tbl : list EventModel.t) :
  pk ∉ EventModel.id <$> tbl → sql_update pk f tbl = tbl.
Proof.
  unfold sql_update. induction tbl as [|a tbl IH]; intros Hpk; [done|].
  rewrite fmap_cons in Hpk. apply not_elem_of_cons in Hpk as [Ha Hpk].
  rewrite fmap_cons. destruct (Z.eqb_spec (EventModel.id a) pk); [done|].
  by rewrite IH.
Qed.

(** With distinct primary keys the [UPDATE] rewrites one row, in place. *)
Lemma sql_update_insert (f : EventModel.fields) (tbl : list EventModel.t)
    (i : nat) (r : EventModel.t) :
  NoDup (EventModel.id <$> tbl) → tbl !! i = Some r →
  sql_update (EventModel.id r) f tbl
  = <[i := let '(b, ts, d, s) := f in
           EventModel.make (EventModel.id r) b ts d s]> tbl.
Proof.
  revert i. induction tbl as [|a tbl IH]; intros i Hnd Hi; [done|].
  rewrite fmap_cons in Hnd. apply NoDup_cons in Hnd as [Ha Hnd].
  destruct i as [|i]; simpl in Hi.
  - injection Hi as ->. unfold sql_update. rewrite fmap_cons.
    rewrite Z.eqb_refl. simpl. f_equal. by apply sql_update_absent.
  - unfold sql_update. rewrite fmap_cons.
    destruct (Z.eqb_spec (EventModel.id a) (EventModel.id r)) as [Heq|_].
    + exfalso. apply Ha. rewrite Heq.
      apply list_elem_of_fmap. exists r. split; [done|].
      by eapply list_elem_of_lookup_2.
    + simpl. f_equal. by apply IH.
Qed.

Lemma get_last_spec (self : t) (bucket_id : string) (k : Z) :
  bucket_keys self !! bucket_id = Some k →
  (∃ r, r ∈ events_table self ∧ EventModel.bucket r = k) →
  ∃ i last,
    _get_last self bucket_id = Ok last
    ∧ events_table self !! i = Some last
    ∧ EventModel.bucket last = k
    ∧ ∀ r, r ∈ events_table self → EventModel.bucket r = k →
           EventModel.timestamp r ≤ EventModel.timestamp last.
Proof.
  intros Hk (r0 & Hr0 & Hb0). unfold _get_last, getitem. rewrite Hk. simpl.
  set (rows := filter (λ r, in_bucket k r = true) (events_table self)).
  assert (Hne : rows ≠ []).
  { intros Hnil. assert (Hin : r0 ∈ rows).
    { apply list_elem_of_filter. by rewrite in_bucket_spec. }
    rewrite Hnil in Hin. by apply elem_of_nil in Hin. }
  destruct (head_order_by_desc_is_Some EventModel.timestamp rows Hne)
    as [last Hlast].
  rewrite Hlast.
  assert (Hin : last ∈ rows).
  { apply (elem_of_order_by_desc EventModel.timestamp).
    by apply head_Some_elem_of. }
  apply list_elem_of_filter in Hin as [Hb Hin].
  apply in_bucket_spec in Hb.
  apply list_elem_of_lookup_1 in Hin as [i Hi].
  exists i, last. repeat split; try done.
  intros r Hr Hbr.
  apply (head_order_by_desc_max EventModel.timestamp rows); [done|].
  apply list_elem_of_filter. by rewrite in_bucket_spec.
Qed.
End PeeweeUpdate.

Section MongoUpdate.
Import MongoDBStorage.
Context {Data : Type}.
Implicit Types (l : list (EventDoc.t Data)) (d : EventDoc.t Data).

Lemma replace_one_absent (i : bson.id) (event : Event) l :
  i ∉ EventDoc._id <$> l → replace_one (has_id i) event l = l.
Proof.
  induction l as [|a l IH]; intros Hi; [done|].
  rewrite fmap_cons in Hi. apply not_elem_of_cons in Hi as [Ha Hi].
  simpl. unfold has_id at 1. rewrite bool_decide_eq_false_2; [|done].
  by rewrite IH.
Qed.

(** With distinct [_id]s, [replace_one] on the [_id] of a stored document
    rewrites that document, in place, and keeps its [_id]. *)
Lemma replace_one_insert (event : Event) l (i : nat) d :
  NoDup (EventDoc._id <$> l) → l !! i = Some d →
  replace_one (has_id (EventDoc._id d)) event l
  = <[i := to_doc (EventDoc._id d) event]> l.
Proof.
  revert i. induction l as [|a l IH]; intros i Hnd Hi; [done|].
  rewrite fmap_cons in Hnd. apply NoDup_cons in Hnd as [Ha Hnd].
  destruct i as [|i]; simpl in Hi.
  - injection Hi as ->. simpl. unfold has_id at 1.
    by rewrite bool_decide_eq_true_2.
  - simpl. unfold has_id at 1. rewrite bool_decide_eq_false_2.
    + f_equal. by apply IH.
    + intros Heq. apply Ha. rewrite Heq.
      apply list_elem_of_fmap. exists d. split; [done|].
      by eapply list_elem_of_lookup_2.
Qed.

Lemma head_limit_rows_1 {A} (l : list A) : head (limit_rows 1 l) = head l.
Proof. by destruct l. Qed.

Lemma collection_set_events (self : t Data) (bucket_id b : string)
    l (oid : N) :
  collection (set_events (<[bucket_id := l]> (db_events self)) oid self) b
  = if decide (bucket_id = b) then l else collection self b.
Proof.
  unfold collection. simpl. rewrite lookup_insert. by case_decide.
Qed.
End MongoUpdate.

(** C5: in a bucket that holds an event, [replace_last] overwrites the
    timestamp, duration and data of one event with the greatest timestamp
    of the bucket by those of the new event; the overwritten event keeps
    its id and its place, and every other event of the store is as before.
    This holds on both backends, whose keys are distinct. *)
Theorem replace_last_overwrites_last {Data} (json_dumps : Data → string)
    (p : PeeweeStorage.t) (m : MongoDBStorage.t Data)
    (bucket_id : string) (k : Z)
    (event : Event.t Z Data) (event' : Event.t bson.id Data) :
  PeeweeStorage.bucket_keys p !! bucket_id = Some k →
  NoDup (EventModel.id <$> PeeweeStorage.events_table p) →
  (∃ r, r ∈ PeeweeStorage.events_table p ∧ EventModel.bucket r = k) →
  NoDup (EventDoc._id <$> MongoDBStorage.collection m bucket_id) →
  MongoDBStorage.collection m bucket_id ≠ [] →
  (∃ i last p',
     PeeweeStorage.events_table p !! i = Some last
     ∧ EventModel.bucket last = k
     ∧ (∀ r, r ∈ PeeweeStorage.events_table p → EventModel.bucket r = k →
             EventModel.timestamp r ≤ EventModel.timestamp last)
     ∧ PeeweeStorage.replace_last json_dumps p bucket_id event
       = (Ok (Event.set_id (Some (EventModel.id last)) event), p')
     ∧ PeeweeStorage.events_table p'
       = <[i := EventModel.make (EventModel.id last) k
                  (Event.timestamp event) (Event.duration event)
                  (json_dumps (Event.data event))]>
           (PeeweeStorage.events_table p))
  ∧ (∃ i last m',
       MongoDBStorage.collection m bucket_id !! i = Some last
       ∧ (∀ d, d ∈ MongoDBStorage.collection m bucket_id →
               EventDoc.timestamp d ≤ EventDoc.timestamp last)
       ∧ MongoDBStorage.replace_last m bucket_id event' = (Ok tt, m')
       ∧ MongoDBStorage.collection m' bucket_id
         = <[i := EventDoc.make (EventDoc._id last) (Event.id event')
                    (Event.timestamp event') (Event.duration event')
                    (Event.data event')]>
             (MongoDBStorage.collection m bucket_id)
       ∧ ∀ b, b ≠ bucket_id →
              MongoDBStorage.collection m' b = MongoDBStorage.collection m b).
Proof.
  intros Hk Hnd Hex Hnd' Hne. split.
  - destruct (get_last_spec p bucket_id k Hk Hex)
      as (i & last & Hget & Hi & Hb & Hmax).
    exists i, last. eexists. repeat split; try done.
    + unfold PeeweeStorage.replace_last. rewrite Hget.
      unfold PeeweeStorage.overwrite. simpl. reflexivity.
    + simpl. rewrite (sql_update_insert _ _ i last Hnd Hi).
      unfold PeeweeStorage.from_event. by rewrite Hb.
  - unfold MongoDBStorage.replace_last. rewrite head_limit_rows_1.
    destruct (head_order_by_desc_is_Some EventDoc.timestamp _ Hne)
      as [last Hlast].
    rewrite Hlast.
    assert (Hin : last ∈ MongoDBStorage.collection m bucket_id).
    { apply (elem_of_order_by_desc EventDoc.timestamp).
      by apply head_Some_elem_of. }
    apply list_elem_of_lookup_1 in Hin as [i Hi].
    exists i, last. eexists. repeat split; try done.
    + by apply (head_order_by_desc_max EventDoc.timestamp).
    + rewrite collection_set_events. rewrite decide_True by done.
      by apply replace_one_insert.
    + intros b Hb. rewrite collection_set_events.
      by rewrite decide_False by done.
Qed.

Lemma replace_last_overwrites_last_witness :
  let p := Sample.peewee1 in
  let m := Sample.mongo1 in
  let event : Event.t Z string := Event.make None 300 7 "{x}"%string in
  let event' : Event.t bson.id string := Event.make None 300 7 "{x}"%string in
  (PeeweeStorage.bucket_keys p !! "b1" = Some 1
   ∧ NoDup (EventModel.id <$> PeeweeStorage.events_table p)
   ∧ (∃ r, r ∈ PeeweeStorage.events_table p ∧ EventModel.bucket r = 1)
   ∧ NoDup (EventDoc._id <$> MongoDBStorage.collection m "b1")
   ∧ MongoDBStorage.collection m "b1" ≠ [])
  ∧ (∃ i last p',
       PeeweeStorage.events_table p !! i = Some last
       ∧ EventModel.bucket last = 1
       ∧ (∀ r, r ∈ PeeweeStorage.events_table p → EventModel.bucket r = 1 →
               EventModel.timestamp r ≤ EventModel.timestamp last)
       ∧ PeeweeStorage.replace_last Sample.dumps p "b1" event
         = (Ok (Event.set_id (Some (EventModel.id last)) event), p')
       ∧ PeeweeStorage.events_table p'
         = <[i := EventModel.make (EventModel.id last) 1
                    (Event.timestamp event) (Event.duration event)
                    (Sample.dumps (Event.data event))]>
             (PeeweeStorage.events_table p))
  ∧ (∃ i last m',
       MongoDBStorage.collection m "b1" !! i = Some last
       ∧ (∀ d, d ∈ MongoDBStorage.collection m "b1" →
               EventDoc.timestamp d ≤ EventDoc.timestamp last)
       ∧ MongoDBStorage.replace_last m "b1" event' = (Ok tt, m')
       ∧ MongoDBStorage.collection m' "b1"
         = <[i := EventDoc.make (EventDoc._id last) (Event.id event')
                    (Event.timestamp event') (Event.duration event')
                    (Event.data event')]>
             (MongoDBStorage.collection m "b1")
       ∧ ∀ b, b ≠ "b1" →
              MongoDBStorage.collection m' b = MongoDBStorage.collection m b).
Proof.
  intros p m event event'.
  assert (H1 : PeeweeStorage.bucket_keys p !! "b1" = Some 1) by reflexivity.
  assert (H2 : NoDup (EventModel.id <$> PeeweeStorage.events_table p)).
  { compute_done. }
  assert (H3 : ∃ r, r ∈ PeeweeStorage.events_table p ∧ EventModel.bucket r = 1).
  { exists (EventModel.make 1 1 100 10 "{}"). split; [|reflexivity].
    vm_compute. left. }
  assert (H4 : NoDup (EventDoc._id <$> MongoDBStorage.collection m "b1")).
  { compute_done. }
  assert (H5 : MongoDBStorage.collection m "b1" ≠ []) by (vm_compute; done).
  split; [done|].
  exact (replace_last_overwrites_last Sample.dumps p m "b1" 1 event event'
           H1 H2 H3 H4 H5).
Defined.

(** * Insert, then get *)

Lemma filter_none {A} (P : A → Prop) `{∀ x, Decision (P x)} (l : list A) :
  (∀ x, x ∈ l → ¬ P x) → filter P l = [].
Proof.
  induction l as [|a l IH]; intros Hl; [done|].
  rewrite filter_cons_False by (apply Hl; left).
  apply IH. intros x Hx. apply Hl. by right.
Qed.

Lemma filter_all {A} (P : A → Prop) `{∀ x, Decision (P x)} (l : list A) :
  (∀ x, x ∈ l → P x) → filter P l = l.
Proof.
  induction l as [|a l IH]; intros Hl; [done|].
  rewrite filter_cons_True by (apply Hl; left).
  f_equal. apply IH. intros x Hx. apply Hl. by right.
Qed.

Section PeeweeInsert.
Import PeeweeStorage.
Context {Data : Type}.
Context (json_dumps : Data → string) (json_loads : string → Data).

(** An event without an id is inserted under the next key of the
    sequence. *)
Lemma insert_one_fresh (self : t) (bucket_id : string) (k : Z)
    (event : Event.t Z Data) :
  bucket_keys self !! bucket_id = Some k → Event.id event = None →
  insert_one json_dumps self bucket_id event
  = (Ok (Event.set_id (Some (events_seq self)) event),
     set_events
       (events_table self
        ++ [EventModel.make (events_seq self) k (Event.timestamp event)
              (Event.duration event) (json_dumps (Event.data event))])
       (events_seq self + 1) self).
Proof.
  intros Hk Hid. unfold insert_one, getitem. rewrite Hk, Hid. done.
Qed.

(** The sequence keeps the invariant of the table. *)
Lemma insert_one_wf (self : t) (bucket_id : string) (k : Z)
    (event : Event.t Z Data) :
  bucket_keys self !! bucket_id = Some k → Event.id event = None →
  peewee_wf self → peewee_wf (insert_one json_dumps self bucket_id event).2.
Proof.
  intros Hk Hid [Hnd Hlt]. rewrite (insert_one_fresh _ _ k) by done.
  unfold peewee_wf. simpl. split.
  - rewrite fmap_app. apply NoDup_app. split; [done|]. split.
    + intros i Hi Hi'. apply list_elem_of_fmap in Hi as (r & -> & Hr).
      apply Hlt in Hr. simpl in Hi'. apply list_elem_of_singleton in Hi'.
      lia.
    + simpl. apply NoDup_singleton.
  - intros r Hr. apply elem_of_app in Hr as [Hr|Hr].
    + apply Hlt in Hr. lia.
    + apply list_elem_of_singleton in Hr as ->. simpl. lia.
Qed.
End PeeweeInsert.



(** * Missing events *)

Lemma peewee_set_events_id (self : PeeweeStorage.t) :
  PeeweeStorage.set_events (PeeweeStorage.events_table self)
    (PeeweeStorage.events_seq self) self = self.
Proof. by destruct self. Qed.





(** * Auxiliary records *)

Lemma filter_filter_not {A} (P : A → Prop) `{∀ x, Decision (P x)}
    (l : list A) :
  filter P (filter (λ x, ¬ P x) l) = [].
Proof.
  apply filter_none. intros x Hx. by apply list_elem_of_filter in Hx as [? _].
Qed.

(** C8: after two calls of [save_user] with the same email there is one
    record with that email, and it holds the values of the second call:
    its fields and the instant of the call on the relational backend, the
    dictionary itself on the document store. *)
Theorem save_user_twice {Data} (isoformat : datetime → string)
    (now1 now2 : datetime) (p : PeeweeStorage.t) (m : MongoDBStorage.t Data)
    (u1 u2 : gmap string string)
    (key device_id name access_token refresh_token : string) :
  u1 !! "email" = Some key →
  u2 !! "email" = Some key →
  u2 !! "device_id" = Some device_id →
  u2 !! "name" = Some name →
  u2 !! "access_token" = Some access_token →
  u2 !! "refresh_token" = Some refresh_token →
  let p1 := (PeeweeUsers.save_user isoformat now1 p u1).2 in
  let p2 := (PeeweeUsers.save_user isoformat now2 p1 u2).2 in
  let m1 := (MongoDBStorage.save_user m u1).2 in
  let m2 := (MongoDBStorage.save_user m1 u2).2 in
  filter (λ u, UserModel.email u = key) (PeeweeStorage.users_table p2)
  = [UserModel.make (PeeweeStorage.users_seq p1) device_id name key
       access_token refresh_token (Some now2)]
  ∧ filter (λ u, u !! "email" = Some key) (MongoDBStorage.db_users m2) = [u2].
Proof.
  intros He1 He2 Hd Hn Ha Hr p1 p2 m1 m2. split.
  - subst p2. generalize p1. clear p1. intros p1.
    unfold PeeweeUsers.save_user, getitem.
    rewrite He2, Hd, Hn, Ha, Hr. simpl.
    rewrite filter_app, filter_filter_not.
    by rewrite filter_cons_True.
  - subst m2. generalize m1. clear m1. intros m1.
    unfold MongoDBStorage.save_user, getitem. rewrite He2. simpl.
    rewrite filter_app, filter_filter_not.
    by rewrite filter_cons_True.
Qed.

Lemma save_user_twice_witness :
  let u1 := Sample.user "Ann" "t1" in
  let u2 := Sample.user "Ann B" "t2" in
  let key := "a@example.org"%string in
  (u1 !! "email" = Some key ∧ u2 !! "email" = Some key
   ∧ u2 !! "device_id" = Some "d1"%string ∧ u2 !! "name" = Some "Ann B"%string
   ∧ u2 !! "access_token" = Some "t2"%string
   ∧ u2 !! "refresh_token" = Some "r"%string)
  ∧ let p1 := (PeeweeUsers.save_user Sample.isoformat 10 Sample.peewee1 u1).2 in
    let p2 := (PeeweeUsers.save_user Sample.isoformat 20 p1 u2).2 in
    let m1 := (MongoDBStorage.save_user Sample.mongo1 u1).2 in
    let m2 := (MongoDBStorage.save_user m1 u2).2 in
    filter (λ u, UserModel.email u = key) (PeeweeStorage.users_table p2)
    = [UserModel.make (PeeweeStorage.users_seq p1) "d1" "Ann B" key
         "t2" "r" (Some 20)]
    ∧ filter (λ u, u !! "email" = Some key) (MongoDBStorage.db_users m2)
      = [u2].
Proof.
  intros u1 u2 key.
  split; [by repeat split|].
  exact (save_user_twice Sample.isoformat 10 20 Sample.peewee1 Sample.mongo1
           u1 u2 key "d1" "Ann B" "t2" "r"
           eq_refl eq_refl eq_refl eq_refl eq_refl eq_refl).
Defined.

(** * The list of buckets *)

Section Strings.
Lemma list_ascii_of_string_app (s1 s2 : string) :
  list_ascii_of_string (s1 +:+ s2)
  = list_ascii_of_string s1 ++ list_ascii_of_string s2.
Proof. induction s1 as [|a s1 IH]; simpl; [done|]. by rewrite IH. Qed.

Lemma rfind_from_app (c : ascii) (l1 l2 : list ascii) (i last : Z) :
  rfind_from c (l1 ++ l2) i last
  = rfind_from c l2 (i + Z.of_nat (length l1)) (rfind_from c l1 i last).
Proof.
  revert i last. induction l1 as [|a l1 IH]; intros i last; simpl.
  - by rewrite Z.add_0_r.
  - rewrite IH. f_equal. lia.
Qed.

(** Cutting the name of a metadata collection at its last dot gives the
    bucket id back, dots in the id or not. *)
Lemma slice_metadata_name (b : string) :
  slice_to (b +:+ ".metadata") (rfind (b +:+ ".metadata") ".") = b.
Proof.
  unfold rfind, slice_to. rewrite list_ascii_of_string_app, rfind_from_app.
  simpl. rewrite Z.add_0_l. set (n := length (list_ascii_of_string b)).
  destruct (Z.ltb_spec (Z.of_nat n) 0); [lia|].
  rewrite Nat2Z.id. subst n. rewrite take_app_length.
  apply string_of_list_ascii_of_string.
Qed.
End Strings.

Section MongoBuckets.
Import MongoDBStorage.
Context {Data : Type}.

Lemma collect_metadata_lookup (self : t Data) (l : list string)
    (acc : gmap string Metadata.t) (b : string) :
  foldl (λ buckets bucket_id,
           match get_metadata self bucket_id with
           | Ok m => <[bucket_id := m]> buckets
           | Raise _ => buckets
           end) acc l !! b
  = if decide (b ∈ l ∧ is_Some (db_metadata self !! b))
    then db_metadata self !! b else acc !! b.
Proof.
  revert acc. induction l as [|a l IH]; intros acc.
  - cbn [foldl]. destruct (decide _) as [[H _]|_]; [|done].
    by apply elem_of_nil in H.
  - cbn [foldl]. rewrite IH. unfold get_metadata.
    destruct (decide (b ∈ l ∧ is_Some (db_metadata self !! b)))
      as [[Hl Hs]|Hn].
    + rewrite decide_True; [done|]. split; [by right|done].
    + destruct (db_metadata self !! a) as [md|] eqn:Ha.
      * destruct (decide (a = b)) as [->|Hab].
        -- rewrite lookup_insert_eq, decide_True; [done|].
           split; [left|by eexists].
        -- rewrite lookup_insert_ne by done.
           rewrite decide_False; [done|].
           intros [Hin Hs]. apply elem_of_cons in Hin as [?|?]; [done|].
           by apply Hn.
      * rewrite decide_False; [done|].
        intros [Hin Hs]. apply elem_of_cons in Hin as [->|?].
        -- rewrite Ha in Hs. by destruct Hs.
        -- by apply Hn.
Qed.

(** The map that [buckets] rebuilds: the metadata of every bucket that
    has some, but for the names that the code discards. *)
Lemma enumerate_lookup (self : t Data) (b : string) :
  enumerate self !! b
  = if decide (b = "system" ∨ b = "user") then None
    else db_metadata self !! b.
Proof.
  unfold enumerate. rewrite collect_metadata_lookup.
  destruct (decide (b = "system" ∨ b = "user")) as [Hd|Hd].
  - rewrite decide_False; [done|]. intros [Hin _].
    apply elem_of_elements in Hin.
    apply elem_of_difference in Hin as [Hin Hu].
    apply elem_of_difference in Hin as [Hin Hs].
    rewrite elem_of_singleton in Hu, Hs. by destruct Hd.
  - destruct (db_metadata self !! b) as [md|] eqn:Hb.
    + rewrite decide_True; [done|]. split; [|by eexists].
      apply elem_of_elements.
      apply elem_of_difference. split; [|rewrite elem_of_singleton; tauto].
      apply elem_of_difference. split; [|rewrite elem_of_singleton; tauto].
      apply elem_of_list_to_set, list_elem_of_fmap.
      exists (b +:+ ".metadata"). split.
      * by rewrite slice_metadata_name.
      * unfold list_collection_names.
        apply elem_of_app. right. apply elem_of_app. left.
        apply list_elem_of_fmap. exists b. split; [done|].
        apply elem_of_elements, elem_of_dom. by eexists.
    + by case_decide.
Qed.
End MongoBuckets.

(** C9, as stated, fails on the relational backend, whose cache is
    commented out: one microsecond after the stamp of the cache, inside any
    freshness window, [buckets] returns the buckets of the table and not
    the cached snapshot, which is still [None]. *)
Lemma peewee_buckets_not_cached :
  let p := Sample.peewee1 in
  1 - PeeweeStorage.last_cached_ms p < seconds 6000
  ∧ PeeweeStorage.cached_buckets p = None
  ∧ PeeweeStorage.buckets p !! "b1" = Some (BucketModel.json Sample.b1)
  ∧ Some (PeeweeStorage.buckets p) ≠ PeeweeStorage.cached_buckets p.
Proof. repeat split; try by vm_compute. Qed.

(** C9 (amended): on the document store, a call of [buckets] made less
    than the freshness window (6000 seconds of the clock) after the stamp
    of the cache returns the cached snapshot and changes nothing; any other
    call re-enumerates the buckets, rebuilds the map from id to metadata,
    keeps it as the snapshot and stamps the cache with the current time.
    The relational backend keeps no cache: [buckets] reads the table at
    every call, whatever the cache fields hold. *)
Theorem buckets_cache {Data} (now now' : Z) (m : MongoDBStorage.t Data)
    (p : PeeweeStorage.t) (c : option (gmap string Metadata.t)) (ms : Z) :
  (now - MongoDBStorage.last_cached_ms m < seconds 6000 →
   MongoDBStorage.buckets now now' m = (MongoDBStorage.cached_buckets m, m))
  ∧ (seconds 6000 ≤ now - MongoDBStorage.last_cached_ms m →
     ∃ snapshot m',
       MongoDBStorage.buckets now now' m = (Some snapshot, m')
       ∧ (∀ b, snapshot !! b
               = if decide (b = "system" ∨ b = "user") then None
                 else MongoDBStorage.db_metadata m !! b)
       ∧ MongoDBStorage.cached_buckets m' = Some snapshot
       ∧ MongoDBStorage.last_cached_ms m' = now'
       ∧ MongoDBStorage.db_events m' = MongoDBStorage.db_events m
       ∧ MongoDBStorage.db_metadata m' = MongoDBStorage.db_metadata m
       ∧ MongoDBStorage.db_users m' = MongoDBStorage.db_users m)
  ∧ PeeweeStorage.buckets
      (PeeweeStorage.make (PeeweeStorage.buckets_table p)
         (PeeweeStorage.events_table p) (PeeweeStorage.users_table p)
         (PeeweeStorage.events_seq p) (PeeweeStorage.users_seq p)
         (PeeweeStorage.bucket_keys p) c ms)
    = PeeweeStorage.buckets p.
Proof.
  split; [|split].
  - intros Hfresh. unfold MongoDBStorage.buckets.
    by destruct (Z.ltb_spec (now - MongoDBStorage.last_cached_ms m)
                   (seconds 6000)); [|lia].
  - intros Hstale. unfold MongoDBStorage.buckets.
    destruct (Z.ltb_spec (now - MongoDBStorage.last_cached_ms m)
                (seconds 6000)); [lia|].
    eexists _, _. split; [reflexivity|].
    split; [apply enumerate_lookup|]. done.
  - done.
Qed.

Lemma buckets_cache_witness :
  let meta := Metadata.make "b1" "2024-01-01" (Some "b1"%string) "afk" "test"
                "host" in
  let m : MongoDBStorage.t string :=
    MongoDBStorage.make ∅ {["b1" := meta]} [] 0%N None (seconds 1000) in
  (seconds 2000 - MongoDBStorage.last_cached_ms m < seconds 6000
   ∧ MongoDBStorage.buckets (seconds 2000) (seconds 2001) m
     = (MongoDBStorage.cached_buckets m, m))
  ∧ (seconds 6000 ≤ seconds 9000 - MongoDBStorage.last_cached_ms m
     ∧ ∃ snapshot m',
         MongoDBStorage.buckets (seconds 9000) (seconds 9001) m
         = (Some snapshot, m')
         ∧ snapshot !! "b1" = Some meta
         ∧ MongoDBStorage.last_cached_ms m' = seconds 9001).
Proof.
  intros meta m. split.
  - assert (H : seconds 2000 - MongoDBStorage.last_cached_ms m < seconds 6000)
      by (vm_compute; reflexivity).
    split; [exact H|].
    exact (proj1 (buckets_cache (seconds 2000) (seconds 2001) m
                    Sample.peewee1 None 0) H).
  - assert (H : seconds 6000 ≤ seconds 9000 - MongoDBStorage.last_cached_ms m)
      by (vm_compute; discriminate).
    split; [exact H|].
    destruct (proj1 (proj2 (buckets_cache (seconds 9000) (seconds 9001) m
                              Sample.peewee1 None 0)) H)
      as (snapshot & m' & Hb & Hs & _ & Hms & _).
    exists snapshot, m'. split; [exact Hb|]. split; [|exact Hms].
    rewrite Hs. reflexivity.
Defined.

(** * Bulk insertion *)

Section PeeweeBulk.
Import PeeweeStorage.
Context {Data : Type} (json_dumps : Data → string).

Lemma sql_insert_spec (rows : list EventModel.fields)
    (tbl : list EventModel.t) (seq : Z) :
  sql_insert rows tbl seq
  = (tbl ++ number_rows seq rows, seq + Z.of_nat (length rows)).
Proof.
  revert tbl seq. induction rows as [|[[[b ts] d] s] rows IH];
    intros tbl seq; simpl.
  - by rewrite app_nil_r, Z.add_0_r.
  - rewrite IH, <- app_assoc. simpl. f_equal. lia.
Qed.

Lemma sql_insert_app (rows1 rows2 : list EventModel.fields)
    (tbl : list EventModel.t) (seq : Z) :
  sql_insert (rows1 ++ rows2) tbl seq
  = let '(tbl', seq') := sql_insert rows1 tbl seq in
    sql_insert rows2 tbl' seq'.
Proof.
  revert tbl seq. induction rows1 as [|[[[b ts] d] s] rows1 IH];
    intros tbl seq; simpl; [done|]. apply IH.
Qed.

Lemma insert_chunks_concat (cs : list (list EventModel.fields))
    (tbl : list EventModel.t) (seq : Z) :
  insert_chunks cs tbl seq = sql_insert (concat cs) tbl seq.
Proof.
  revert tbl seq. induction cs as [|c cs IH]; intros tbl seq; simpl; [done|].
  rewrite sql_insert_app. destruct (sql_insert c tbl seq). apply IH.
Qed.

(** The chunks, put end to end, are the list. *)
Lemma concat_chunks_aux {A} (fuel : nat) (ls : list A) (n : nat) :
  (0 < n)%nat → (length ls ≤ fuel)%nat → concat (chunks_aux fuel ls n) = ls.
Proof.
  intros Hn. revert ls. induction fuel as [|fuel IH]; intros ls Hlen.
  - destruct ls; [done|simpl in Hlen; lia].
  - destruct ls as [|x ls]; [done|].
    change (chunks_aux (S fuel) (x :: ls) n)
      with (take n (x :: ls) :: chunks_aux fuel (drop n (x :: ls)) n).
    rewrite concat_cons, IH.
    + apply take_drop.
    + rewrite length_drop. simpl in *. lia.
Qed.

Lemma concat_chunks {A} (ls : list A) (n : nat) :
  (0 < n)%nat → concat (chunks ls n) = ls.
Proof. intros Hn. by apply concat_chunks_aux. Qed.

(** No chunk is longer than the chunk size. *)
Lemma chunks_length {A} (ls : list A) (n : nat) :
  Forall (λ c, (length c ≤ n)%nat) (chunks ls n).
Proof.
  unfold chunks. generalize (length ls) as fuel. intros fuel. revert ls.
  induction fuel as [|fuel IH]; intros ls; [constructor|].
  destruct ls as [|x ls]; [constructor|].
  change (chunks_aux (S fuel) (x :: ls) n)
    with (take n (x :: ls) :: chunks_aux fuel (drop n (x :: ls)) n).
  constructor; [|apply IH]. rewrite length_take. lia.
Qed.

(** Chunking is transparent: the chunked inserts leave the table that one
    [INSERT] of the whole list would leave. *)
Lemma insert_chunks_chunks (rows : list EventModel.fields)
    (tbl : list EventModel.t) (seq : Z) :
  insert_chunks (chunks rows 100) tbl seq
  = (tbl ++ number_rows seq rows, seq + Z.of_nat (length rows)).
Proof.
  rewrite insert_chunks_concat, concat_chunks by lia. apply sql_insert_spec.
Qed.

Lemma bucket_size_app (k : Z) (tbl1 tbl2 : list EventModel.t) :
  bucket_size k (tbl1 ++ tbl2)
  = (bucket_size k tbl1 + bucket_size k tbl2)%nat.
Proof. unfold bucket_size. by rewrite filter_app, length_app. Qed.

Lemma bucket_size_number_rows (k seq : Z) (evs : list (Event.t Z Data)) :
  bucket_size k (number_rows seq (from_event json_dumps k <$> evs))
  = length evs.
Proof.
  unfold bucket_size. revert seq. induction evs as [|e evs IH]; intros seq;
    [done|].
  simpl. rewrite filter_cons_True by (simpl; apply Z.eqb_refl).
  simpl. by rewrite IH.
Qed.

(** An [UPDATE] on the key of a row of the bucket, or on a key that no row
    has, leaves the size of the bucket as it is. *)
Lemma bucket_size_sql_update (k pk : Z) (ts : datetime) (d : timedelta)
    (s : string) (tbl : list EventModel.t) :
  (∀ r, r ∈ tbl → EventModel.id r = pk → EventModel.bucket r = k) →
  bucket_size k (sql_update pk (k, ts, d, s) tbl) = bucket_size k tbl.
Proof.
  unfold bucket_size, sql_update.
  induction tbl as [|a tbl IH]; intros Hk; [done|].
  rewrite fmap_cons, !filter_cons.
  assert (IH' := IH (λ r Hr, Hk r (list_elem_of_further _ _ _ Hr))).
  destruct (Z.eqb_spec (EventModel.id a) pk) as [Heq|Hne].
  - specialize (Hk a (list_elem_of_here _ _) Heq).
    rewrite decide_True by (simpl; apply Z.eqb_refl).
    rewrite decide_True by (by apply in_bucket_spec).
    simpl. by rewrite IH'.
  - destruct (decide (in_bucket k a = true)); simpl; by rewrite IH'.
Qed.

Lemma sql_update_rows (pk : Z) (f : EventModel.fields)
    (tbl : list EventModel.t) (r' : EventModel.t) :
  r' ∈ sql_update pk f tbl →
  ∃ r, r ∈ tbl ∧ EventModel.id r' = EventModel.id r
       ∧ (EventModel.bucket r' = EventModel.bucket r
          ∨ EventModel.bucket r' = f.1.1.1).
Proof.
  unfold sql_update. intros Hr'.
  apply list_elem_of_fmap in Hr' as (r & -> & Hr).
  exists r. split; [done|].
  destruct (Z.eqb_spec (EventModel.id r) pk) as [Heq|Hne]; [|by split; [|left]].
  destruct f as [[[b ts] d] s]. simpl. split; [done|by right].
Qed.

(** The update loop of [insert_many], on events that all carry the id of a
    row of the bucket or of no row at all. *)
Lemma insert_each_bucket_size (self : t) (bucket_id : string) (k : Z)
    (ids : list Z) (evs : list (Event.t Z Data)) :
  bucket_keys self !! bucket_id = Some k →
  (∀ e, e ∈ evs → ∃ i, Event.id e = Some i ∧ i ∈ ids) →
  (∀ r i, r ∈ events_table self → i ∈ ids → EventModel.id r = i →
          EventModel.bucket r = k) →
  ∃ self',
    insert_each json_dumps self bucket_id evs = (Ok tt, self')
    ∧ bucket_keys self' = bucket_keys self
    ∧ events_seq self' = events_seq self
    ∧ bucket_size k (events_table self') = bucket_size k (events_table self).
Proof.
  intros Hk. revert self Hk.
  induction evs as [|e evs IH]; intros self Hk Hids Hown.
  - by exists self.
  - destruct (Hids e (list_elem_of_here _ _)) as (i & Hi & Hin).
    simpl. unfold insert_one, getitem. rewrite Hk, Hi.
    unfold save, from_event.
    set (self1 := set_events _ _ self).
    destruct (IH self1) as (self' & Heach & Hkeys & Hseq & Hsize).
    + done.
    + intros e' He'. apply Hids. by right.
    + intros r' j Hr' Hj Hid. simpl in Hr'.
      apply sql_update_rows in Hr' as (r & Hr & Hid' & [Hb|Hb]).
      * rewrite Hb. apply (Hown r j); [done..|]. by rewrite <- Hid'.
      * done.
    + exists self'. split; [done|]. split; [done|]. split; [done|].
      rewrite Hsize. simpl. apply bucket_size_sql_update.
      intros r Hr Hid. by apply (Hown r i).
Qed.

(** On the relational backend [insert_many] does what C4 says, when the
    ids the events carry are ids of this bucket, or of no row: the events
    with an id are saved one by one, the others inserted in chunks, and
    the bucket grows by the number of events without an id. *)
Lemma peewee_insert_many_count (self : t) (bucket_id : string) (k : Z)
    (events : list (Event.t Z Data)) :
  bucket_keys self !! bucket_id = Some k →
  (∀ e i r, e ∈ events → Event.id e = Some i → r ∈ events_table self →
            EventModel.id r = i → EventModel.bucket r = k) →
  ∃ self',
    insert_many json_dumps self bucket_id events = (Ok tt, self')
    ∧ bucket_size k (events_table self')
      = (bucket_size k (events_table self)
         + length (filter (λ e, Event.id e = None) events))%nat.
Proof.
  intros Hk Hown. unfold insert_many.
  set (ids := omap Event.id events).
  match goal with
  | |- context [insert_each _ _ _ ?us] =>
      destruct (insert_each_bucket_size self bucket_id k ids us Hk)
        as (self1 & Heach & Hkeys & Hseq & Hsize)
  end.
  { intros e He. apply list_elem_of_filter in He as [Hid He].
    apply bool_decide_eq_true in Hid as [i Hi]. exists i. split; [done|].
    apply list_elem_of_omap. by exists e. }
  { intros r i Hr Hi Hid. apply list_elem_of_omap in Hi as (e & He & Hi).
    by apply (Hown e i r). }
  rewrite Heach. unfold getitem. rewrite Hkeys, Hk.
  rewrite insert_chunks_chunks. eexists. split; [reflexivity|].
  simpl. rewrite bucket_size_app, bucket_size_number_rows, Hsize.
  f_equal. f_equal. apply list_filter_iff. intros e. unfold has_id.
  rewrite bool_decide_eq_false, <- eq_None_not_Some. done.
Qed.
End PeeweeBulk.

(** C4 at the failing input: the document store inserts an event that
    carries an id as a new document, so the bucket grows by one where the
    event should have replaced a stored one; the relational backend sends
    it through [save] and the bucket keeps its two events. *)
Theorem mongo_insert_many_ignores_id :
  let e' : Event.t bson.id string :=
    Event.make (Some (bson.ObjectId 0)) 100 20 "{}"%string in
  let e : Event.t Z string := Event.make (Some 1) 100 20 "{}"%string in
  MongoDBStorage.get_eventcount Sample.mongo1 "b1" None None = 2
  ∧ MongoDBStorage.get_eventcount
      (MongoDBStorage.insert_many Sample.mongo1 "b1" [e']).2 "b1" None None
    = 3
  ∧ PeeweeStorage.get_eventcount Sample.peewee1 "b1" None None = Ok 2
  ∧ PeeweeStorage.get_eventcount
      (PeeweeStorage.insert_many Sample.dumps Sample.peewee1 "b1" [e]).2
      "b1" None None
    = Ok 2.
Proof. repeat split; by vm_compute. Qed.

(** The relational backend saves an event that carries an id by primary
    key alone: an id of another bucket moves that row into this one. *)
Lemma peewee_insert_many_moves_row :
  let e : Event.t Z string := Event.make (Some 1) 100 20 "{}"%string in
  let p := (PeeweeStorage.insert_many Sample.dumps Sample.peewee1 "b2" [e]).2 in
  PeeweeStorage.get_eventcount Sample.peewee1 "b2" None None = Ok 0
  ∧ PeeweeStorage.get_eventcount p "b2" None None = Ok 1
  ∧ PeeweeStorage.get_eventcount p "b1" None None = Ok 1.
Proof. repeat split; by vm_compute. Qed.

(** * Further properties of the queries *)

Section ChunkFacts.
Context {A : Type}.

Lemma chunks_aux_nil (fuel n : nat) : chunks_aux fuel (@nil A) n = [].
Proof. by destruct fuel. Qed.

Lemma chunks_aux_full (fuel : nat) (ls : list A) (n i : nat) (c : list A) :
  chunks_aux fuel ls n !! i = Some c →
  (S i < length (chunks_aux fuel ls n))%nat →
  length c = n.
Proof.
  revert ls i. induction fuel as [|fuel IH]; intros ls i Hi Hlen; [done|].
  destruct ls as [|x ls]; [done|].
  change (chunks_aux (S fuel) (x :: ls) n)
    with (take n (x :: ls) :: chunks_aux fuel (drop n (x :: ls)) n) in *.
  destruct i as [|i]; simpl in Hi, Hlen.
  - injection Hi as <-. rewrite length_take.
    destruct (decide (n ≤ length (x :: ls))%nat) as [Hle|Hgt]; [lia|].
    rewrite drop_ge, chunks_aux_nil in Hlen by lia. simpl in Hlen. lia.
  - apply (IH _ i Hi). lia.
Qed.
End ChunkFacts.

(** X1: [chunks] cuts a list into consecutive pieces: put end to end they
    give the list back, none is empty or longer than [n], and every piece
    but the last has exactly [n] elements. *)
Theorem chunks_partition {A} (ls : list A) (n : nat) :
  (0 < n)%nat →
  concat (chunks ls n) = ls
  ∧ Forall (λ c, (0 < length c ≤ n)%nat) (chunks ls n)
  ∧ ∀ i c, chunks ls n !! i = Some c →
           (S i < length (chunks ls n))%nat → length c = n.
Proof.
  intros Hn. split; [by apply concat_chunks|]. split.
  - unfold chunks. generalize (length ls) as fuel. intros fuel. revert ls.
    induction fuel as [|fuel IH]; intros ls; [constructor|].
    destruct ls as [|x ls]; [constructor|].
    change (chunks_aux (S fuel) (x :: ls) n)
      with (take n (x :: ls) :: chunks_aux fuel (drop n (x :: ls)) n).
    constructor; [|apply IH]. rewrite length_take. simpl. lia.
  - intros i c. apply chunks_aux_full.
Qed.

Lemma chunks_partition_witness :
  (0 < 2)%nat
  ∧ concat (chunks [1; 2; 3; 4; 5] 2) = [1; 2; 3; 4; 5]
  ∧ Forall (λ c, (0 < length c ≤ 2)%nat) (chunks [1; 2; 3; 4; 5] 2)
  ∧ ∀ i c, chunks [1; 2; 3; 4; 5] 2 !! i = Some c →
           (S i < length (chunks [1; 2; 3; 4; 5] 2))%nat → length c = 2%nat.
Proof.
  assert (H : (0 < 2)%nat) by lia.
  split; [exact H|]. exact (chunks_partition [1; 2; 3; 4; 5] 2 H).
Defined.

Section SortedFacts.
Context {A : Type} (key : A → Z).

Lemma insert_desc_descending (x : A) (l : list A) :
  descending key l → descending key (insert_desc key x l).
Proof.
  unfold descending. induction l as [|y l IH]; intros Hl; simpl.
  - repeat constructor.
  - apply StronglySorted_inv in Hl as [Hl Hy].
    destruct (Z.ltb_spec (key x) (key y)).
    + constructor; [by apply IH|].
      rewrite insert_desc_perm. constructor; [lia|done].
    + constructor; [by constructor|].
      constructor; [lia|].
      eapply Forall_impl; [exact Hy|]. simpl. intros z Hz. lia.
Qed.

Lemma order_by_desc_descending (l : list A) :
  descending key (order_by_desc key l).
Proof.
  induction l as [|x l IH]; simpl; [constructor|].
  by apply insert_desc_descending.
Qed.

Lemma take_descending (n : nat) (l : list A) :
  descending key l → descending key (take n l).
Proof.
  unfold descending. intros Hl. rewrite <- (take_drop n l) in Hl.
  by apply StronglySorted_app_1_l in Hl.
Qed.
End SortedFacts.

Section PeeweeQueries.
Import PeeweeStorage.
Context {Data : Type} (json_loads : string → Data).

Lemma trim_timestamp starttime endtime (e : Event.t Z Data) :
  Event.timestamp (trim starttime endtime e)
  = clip_start starttime (Event.timestamp e).
Proof.
  unfold trim, clip_start.
  destruct starttime as [s|], endtime as [en|]; simpl;
    try destruct (Z.ltb_spec (Event.timestamp e) s); simpl;
    repeat (match goal with |- context [if ?a <? ?b then _ else _] =>
              destruct (Z.ltb_spec a b) end; simpl); lia.
Qed.

End PeeweeQueries.

(** X2: the events [get_events] returns on the relational backend are in
    descending order of their (trimmed) timestamps. *)
Theorem peewee_get_events_descending {Data} (json_loads : string → Data)
    (self : PeeweeStorage.t) (bucket_id : string) (limit : Z)
    (starttime endtime : option datetime) (evs : list (Event.t Z Data)) :
  PeeweeStorage.get_events json_loads self bucket_id limit starttime endtime
  = Ok evs →
  descending Event.timestamp evs.
Proof.
  unfold PeeweeStorage.get_events. intros Hget.
  destruct (limit =? 0); [injection Hget as <-; constructor|].
  destruct (getitem _ _) as [k|]; simpl in Hget; [|done].
  injection Hget as <-. rewrite <- list_fmap_compose.
  apply (StronglySorted_fmap _
           (λ x y, EventModel.timestamp y ≤ EventModel.timestamp x)).
  - intros x y Hxy. simpl. rewrite !trim_timestamp. simpl.
    unfold clip_start. destruct starttime; lia.
  - unfold PeeweeStorage.select_events.
    destruct (0 <? limit).
    + rewrite limit_rows_take. apply take_descending.
      apply order_by_desc_descending.
    + apply order_by_desc_descending.
Qed.

Lemma peewee_get_events_descending_witness :
  let evs := [Event.make (Some 2) 200 5 "{}"%string;
              Event.make (Some 1) 105 5 "{}"%string] in
  PeeweeStorage.get_events Sample.loads Sample.peewee1 "b1" (-1) (Some 105)
    None = Ok evs
  ∧ descending Event.timestamp evs.
Proof.
  intros evs.
  assert (H : PeeweeStorage.get_events Sample.loads Sample.peewee1 "b1" (-1)
                (Some 105) None = Ok evs) by reflexivity.
  split; [exact H|].
  exact (peewee_get_events_descending Sample.loads Sample.peewee1 "b1" (-1)
           (Some 105) None evs H).
Defined.



(** X4: on the relational backend [get_eventcount] is the number of events
    that [get_events] returns for the same range when the limit is
    negative. *)
Theorem peewee_count_is_length {Data} (json_loads : string → Data)
    (self : PeeweeStorage.t) (bucket_id : string) (limit : Z)
    (starttime endtime : option datetime) (evs : list (Event.t Z Data)) :
  limit < 0 →
  PeeweeStorage.get_events json_loads self bucket_id limit starttime endtime
  = Ok evs →
  PeeweeStorage.get_eventcount self bucket_id starttime endtime
  = Ok (Z.of_nat (length evs)).
Proof.
  intros Hl Hget.
  destruct (PeeweeStorage.bucket_keys self !! bucket_id) as [k|] eqn:Hk.
  - rewrite (get_events_unlimited _ _ _ k) in Hget by done.
    injection Hget as <-.
    rewrite (get_eventcount_selected _ _ k) by done.
    by rewrite !length_fmap, length_order_by_desc.
  - unfold PeeweeStorage.get_events, getitem in Hget. rewrite Hk in Hget.
    by destruct (Z.eqb_spec limit 0); [lia|].
Qed.

Lemma peewee_count_is_length_witness :
  let evs := [Event.make (Some 1) 105 5 "{}"%string] in
  (-1 < 0
   ∧ PeeweeStorage.get_events Sample.loads Sample.peewee1 "b1" (-1)
       (Some 105) (Some 150) = Ok evs)
  ∧ PeeweeStorage.get_eventcount Sample.peewee1 "b1" (Some 105) (Some 150)
    = Ok (Z.of_nat (length evs)).
Proof.
  intros evs.
  assert (H1 : -1 < 0) by lia.
  assert (H2 : PeeweeStorage.get_events Sample.loads Sample.peewee1 "b1" (-1)
                 (Some 105) (Some 150) = Ok evs) by reflexivity.
  split; [done|].
  exact (peewee_count_is_length Sample.loads Sample.peewee1 "b1" (-1)
           (Some 105) (Some 150) evs H1 H2).
Defined.

(** X5: for an event of non-negative duration that the range selects, in a
    range that is not reversed, trimming computes the intersection of the
    interval of the event with the range: the start moves up to the start
    of the range, the end down to its end, the duration stays non-negative
    and the id and payload are kept.  An event that lies inside the range
    comes back as it is. *)
Theorem trim_intersection {Data} (starttime endtime : option datetime)
    (e : Event.t Z Data) :
  0 ≤ Event.duration e →
  (∀ s, starttime = Some s → s ≤ Event.timestamp e + Event.duration e) →
  (∀ en, endtime = Some en → Event.timestamp e ≤ en) →
  (∀ s en, starttime = Some s → endtime = Some en → s ≤ en) →
  let e' := PeeweeStorage.trim starttime endtime e in
  Event.timestamp e' = clip_start starttime (Event.timestamp e)
  ∧ Event.timestamp e' + Event.duration e'
    = clip_end endtime (Event.timestamp e + Event.duration e)
  ∧ 0 ≤ Event.duration e'
  ∧ Event.id e' = Event.id e
  ∧ Event.data e' = Event.data e
  ∧ ((∀ s, starttime = Some s → s ≤ Event.timestamp e) →
     (∀ en, endtime = Some en → Event.timestamp e + Event.duration e ≤ en) →
     e' = e).
Proof.
  intros Hd Hs He Hse e'. subst e'.
  split; [apply trim_timestamp|].
  split; [|split; [|split; [apply trim_id|split; [apply trim_data|]]]].
  - unfold PeeweeStorage.trim, clip_end.
    destruct starttime as [s|], endtime as [en|]; simpl;
      try specialize (Hs _ eq_refl); try specialize (He _ eq_refl);
      try specialize (Hse _ _ eq_refl eq_refl);
      try destruct (Z.ltb_spec (Event.timestamp e) s); simpl;
      repeat (match goal with |- context [if ?a <? ?b then _ else _] =>
                destruct (Z.ltb_spec a b) end; simpl); lia.
  - unfold PeeweeStorage.trim.
    destruct starttime as [s|], endtime as [en|]; simpl;
      try specialize (Hs _ eq_refl); try specialize (He _ eq_refl);
      try specialize (Hse _ _ eq_refl eq_refl);
      try destruct (Z.ltb_spec (Event.timestamp e) s); simpl;
      repeat (match goal with |- context [if ?a <? ?b then _ else _] =>
                destruct (Z.ltb_spec a b) end; simpl); lia.
  - intros Hin Hin'. unfold PeeweeStorage.trim.
    destruct starttime as [s|], endtime as [en|]; simpl;
      try specialize (Hin _ eq_refl); try specialize (Hin' _ eq_refl);
      try destruct (Z.ltb_spec (Event.timestamp e) s); simpl;
      repeat (match goal with |- context [if ?a <? ?b then _ else _] =>
                destruct (Z.ltb_spec a b) end; simpl); (done || lia).
Qed.

Lemma trim_intersection_witness :
  let e : Event.t Z string := Event.make (Some 1) 100 10 "{}"%string in
  let e' := PeeweeStorage.trim (Some 105) (Some 108) e in
  (0 ≤ Event.duration e
   ∧ (∀ s, Some 105 = Some s → s ≤ Event.timestamp e + Event.duration e)
   ∧ (∀ en, Some 108 = Some en → Event.timestamp e ≤ en)
   ∧ (∀ s en, Some 105 = Some s → Some 108 = Some en → s ≤ en))
  ∧ Event.timestamp e' = clip_start (Some 105) (Event.timestamp e)
  ∧ Event.timestamp e' + Event.duration e'
    = clip_end (Some 108) (Event.timestamp e + Event.duration e)
  ∧ 0 ≤ Event.duration e'
  ∧ Event.id e' = Event.id e
  ∧ Event.data e' = Event.data e
  ∧ ((∀ s, Some 105 = Some s → s ≤ Event.timestamp e) →
     (∀ en, Some 108 = Some en → Event.timestamp e + Event.duration e ≤ en) →
     e' = e).
Proof.
  intros e e'.
  assert (H1 : 0 ≤ Event.duration e) by (simpl; lia).
  assert (H2 : ∀ s, Some 105 = Some s →
                    s ≤ Event.timestamp e + Event.duration e)
    by (intros s [= <-]; simpl; lia).
  assert (H3 : ∀ en, Some 108 = Some en → Event.timestamp e ≤ en)
    by (intros en [= <-]; simpl; lia).
  assert (H4 : ∀ s en, Some 105 = Some s → Some 108 = Some en → s ≤ en)
    by (intros s en [= <-] [= <-]; lia).
  split; [done|].
  exact (trim_intersection (Some 105) (Some 108) e H1 H2 H3 H4).
Defined.

(** * The query of the document store *)

Section MongoQueries.
Import MongoDBStorage.
Context {Data : Type}.

Lemma query_filter_spec (starttime endtime : option datetime)
    (d : EventDoc.t Data) :
  query_filter starttime endtime d = true
  ↔ (∀ s, starttime = Some s → s ≤ EventDoc.timestamp d)
    ∧ (∀ en, endtime = Some en → EventDoc.timestamp d ≤ en).
Proof.
  unfold query_filter. rewrite andb_true_iff. split.
  - intros [Hs He]. split.
    + intros s ->. by apply Z.leb_le in Hs.
    + intros en ->. by apply Z.leb_le in He.
  - intros [Hs He]. split.
    + destruct starttime as [s|]; [|done]. apply Z.leb_le. by apply Hs.
    + destruct endtime as [en|]; [|done]. apply Z.leb_le. by apply He.
Qed.

Lemma limit_rows_all {A} (n : Z) (l : list A) :
  Z.of_nat (length l) ≤ n → limit_rows n l = l.
Proof.
  intros Hn. rewrite limit_rows_take. apply take_ge. lia.
Qed.
End MongoQueries.

(** X6: on the document store [get_events] answers in descending order of
    timestamps with stored events whose timestamp lies between the bounds
    that are given, whatever their duration, and returns their interval
    and payload as stored, with the text of the [_id] as id.  A positive
    limit bounds the length of the answer; with a negative limit, and no
    more than [10^9] events in the bucket, every such event is returned
    and [get_eventcount] is the length of the answer. *)
Theorem mongo_get_events_spec {Data} (m : MongoDBStorage.t Data)
    (bucket_id : string) (limit : Z) (starttime endtime : option datetime) :
  let evs := MongoDBStorage.get_events m bucket_id limit starttime endtime in
  let stored (ev : Event.t bson.id Data) :=
    ∃ d, d ∈ MongoDBStorage.collection m bucket_id
         ∧ (∀ s, starttime = Some s → s ≤ EventDoc.timestamp d)
         ∧ (∀ en, endtime = Some en → EventDoc.timestamp d ≤ en)
         ∧ ev = Event.make (Some (bson.str (EventDoc._id d)))
                  (EventDoc.timestamp d) (EventDoc.duration d)
                  (EventDoc.data d) in
  descending Event.timestamp evs
  ∧ (∀ ev, ev ∈ evs → stored ev)
  ∧ (0 < limit → Z.of_nat (length evs) ≤ limit)
  ∧ (limit < 0 →
     Z.of_nat (length (MongoDBStorage.collection m bucket_id)) ≤ 10 ^ 9 →
     (∀ ev, stored ev → ev ∈ evs)
     ∧ MongoDBStorage.get_eventcount m bucket_id starttime endtime
       = Z.of_nat (length evs)).
Proof.
  intros evs stored. subst evs. unfold MongoDBStorage.get_events.
  set (rows := filter (λ d, MongoDBStorage.query_filter starttime endtime d
                            = true)
                 (MongoDBStorage.collection m bucket_id)).
  assert (Hrows : ∀ d, d ∈ rows ↔
            d ∈ MongoDBStorage.collection m bucket_id
            ∧ (∀ s, starttime = Some s → s ≤ EventDoc.timestamp d)
            ∧ (∀ en, endtime = Some en → EventDoc.timestamp d ≤ en)).
  { intros d. unfold rows.
    rewrite list_elem_of_filter, query_filter_spec. tauto. }
  destruct (Z.eqb_spec limit 0) as [->|Hl0].
  { split; [constructor|]. split; [by intros ev Hev%elem_of_nil|].
    split; lia. }
  set (n := if limit <? 0 then 10 ^ 9 else limit).
  split; [|split; [|split]].
  - apply (StronglySorted_fmap _
             (λ x y, EventDoc.timestamp y ≤ EventDoc.timestamp x));
      [done|].
    rewrite limit_rows_take. apply take_descending.
    apply order_by_desc_descending.
  - intros ev Hev. apply list_elem_of_fmap in Hev as (d & -> & Hd).
    apply elem_of_limit_rows, elem_of_order_by_desc, Hrows in Hd.
    exists d. tauto.
  - intros Hpos. subst n. destruct (Z.ltb_spec limit 0); [lia|].
    rewrite length_fmap, limit_rows_take, length_take. lia.
  - intros Hneg Hsize. subst n. destruct (Z.ltb_spec limit 0); [|lia].
    assert (Hlen : Z.of_nat (length rows) ≤ 10 ^ 9).
    { pose proof (length_filter
                    (λ d, MongoDBStorage.query_filter starttime endtime d
                          = true)
                    (MongoDBStorage.collection m bucket_id)) as Hle.
      fold rows in Hle. lia. }
    rewrite limit_rows_all by (by rewrite length_order_by_desc).
    split.
    + intros ev (d & Hd & Hs & He & ->).
      apply list_elem_of_fmap. exists d. split; [done|].
      apply elem_of_order_by_desc, Hrows. tauto.
    + unfold MongoDBStorage.get_eventcount. fold rows.
      by rewrite length_fmap, length_order_by_desc.
Qed.

Lemma mongo_get_events_spec_witness :
  (-1 < 0
   ∧ Z.of_nat (length (MongoDBStorage.collection Sample.mongo1 "b1"))
     ≤ 10 ^ 9)
  ∧ MongoDBStorage.get_eventcount Sample.mongo1 "b1" (Some 150) None
    = Z.of_nat (length (MongoDBStorage.get_events Sample.mongo1 "b1" (-1)
                          (Some 150) None)).
Proof.
  assert (H1 : -1 < 0) by lia.
  assert (H2 : Z.of_nat (length (MongoDBStorage.collection Sample.mongo1
                                   "b1")) ≤ 10 ^ 9)
    by (vm_compute; discriminate).
  split; [done|].
  destruct (mongo_get_events_spec Sample.mongo1 "b1" (-1) (Some 150) None)
    as (_ & _ & _ & H).
  exact (proj2 (H H1 H2)).
Defined.

(** * Single events on the relational backend *)

(** When one position of a list satisfies a predicate and no other does,
    filtering by the predicate gives that element, filtering by its
    negation removes it, and nothing of the rest satisfies it. *)
Lemma filter_unique {A} (P : A → Prop) `{∀ x, Decision (P x)}
    (l : list A) (i : nat) (x : A) :
  l !! i = Some x → P x →
  (∀ j y, l !! j = Some y → P y → j = i) →
  filter P l = [x]
  ∧ filter (λ y, ¬ P y) l = base.delete i l
  ∧ filter P (base.delete i l) = [].
Proof.
  revert i. induction l as [|a l IH]; intros i Hi Hx Huniq; [done|].
  destruct i as [|i]; simpl in Hi.
  - injection Hi as ->.
    assert (Hrest : ∀ y, y ∈ l → ¬ P y).
    { intros y Hy HP. apply list_elem_of_lookup_1 in Hy as [j Hj].
      by specialize (Huniq (S j) y Hj HP). }
    rewrite filter_cons_True by done.
    rewrite (filter_cons_False (λ y, ¬ P y)) by (by intros ?).
    simpl. rewrite (filter_none P l Hrest).
    split; [done|]. split; [|done].
    apply filter_all. exact Hrest.
  - assert (Ha : ¬ P a).
    { intros HP. by specialize (Huniq O a eq_refl HP). }
    destruct (IH i Hi Hx) as (H1 & H2 & H3).
    { intros j y Hj HP. specialize (Huniq (S j) y Hj HP). lia. }
    rewrite filter_cons_False by done.
    rewrite (filter_cons_True (λ y, ¬ P y)) by done.
    simpl. rewrite filter_cons_False by done.
    by rewrite H1, H2, H3.
Qed.

Section PeeweeSingle.
Import PeeweeStorage.
Context {Data : Type}.
Context (json_dumps : Data → string) (json_loads : string → Data).

Lemma nodup_id_lookup (tbl : list EventModel.t) (i j : nat)
    (r r' : EventModel.t) :
  NoDup (EventModel.id <$> tbl) → tbl !! i = Some r → tbl !! j = Some r' →
  EventModel.id r' = EventModel.id r → j = i.
Proof.
  intros Hnd Hi Hj Heq.
  apply (NoDup_lookup _ j i (EventModel.id r) Hnd).
  - by rewrite list_lookup_fmap, Hj, <- Heq.
  - by rewrite list_lookup_fmap, Hi.
Qed.

Lemma get_event_row (self : t) (bucket_id : string) (k : Z) (i : nat)
    (r : EventModel.t) :
  bucket_keys self !! bucket_id = Some k →
  NoDup (EventModel.id <$> events_table self) →
  events_table self !! i = Some r → EventModel.bucket r = k →
  _get_event self bucket_id (EventModel.id r) = Ok (Some r).
Proof.
  intros Hk Hnd Hi Hb. unfold _get_event, getitem. rewrite Hk. simpl.
  destruct (filter_unique (λ r', EventModel.id r' = EventModel.id r)
              (events_table self) i r Hi eq_refl) as (-> & _).
  { intros j y Hj Hy. by eapply nodup_id_lookup. }
  rewrite filter_cons_True by (by apply in_bucket_spec). done.
Qed.
End PeeweeSingle.

(** X7: on the relational backend, with distinct primary keys, [delete]
    on the id of an event of the bucket removes one row, that event's,
    leaves every other row in place, and [get_event] no longer finds the
    id. *)
Theorem peewee_delete_present {Data} (json_loads : string → Data)
    (self : PeeweeStorage.t) (bucket_id : string) (k : Z) (i : nat)
    (r : EventModel.t) :
  PeeweeStorage.bucket_keys self !! bucket_id = Some k →
  NoDup (EventModel.id <$> PeeweeStorage.events_table self) →
  PeeweeStorage.events_table self !! i = Some r →
  EventModel.bucket r = k →
  ∃ self',
    PeeweeStorage.delete self bucket_id (EventModel.id r) = (Ok 1, self')
    ∧ PeeweeStorage.events_table self'
      = base.delete i (PeeweeStorage.events_table self)
    ∧ PeeweeStorage.get_event json_loads self' bucket_id (EventModel.id r)
      = Ok None.
Proof.
  intros Hk Hnd Hi Hb.
  set (hit r' := bool_decide (EventModel.id r' = EventModel.id r)
                 && PeeweeStorage.in_bucket k r').
  destruct (filter_unique (λ r', hit r' = true)
              (PeeweeStorage.events_table self) i r Hi)
    as (Hhit & Hmiss & _).
  { unfold hit. rewrite bool_decide_eq_true_2 by done.
    by apply in_bucket_spec. }
  { intros j y Hj Hy. unfold hit in Hy.
    apply andb_true_iff in Hy as [Hy _]. apply bool_decide_eq_true in Hy.
    by eapply nodup_id_lookup. }
  destruct (filter_unique (λ r', EventModel.id r' = EventModel.id r)
              (PeeweeStorage.events_table self) i r Hi eq_refl)
    as (_ & _ & Hgone).
  { intros j y Hj Hy. by eapply nodup_id_lookup. }
  assert (Heq : filter (λ r', hit r' = false)
                  (PeeweeStorage.events_table self)
                = base.delete i (PeeweeStorage.events_table self)).
  { rewrite <- Hmiss. apply list_filter_iff. intros r'.
    by rewrite not_true_iff_false. }
  unfold hit in *.
  eexists. unfold PeeweeStorage.delete, getitem. rewrite Hk.
  cbv zeta. rewrite Hhit. split; [reflexivity|]. simpl. split.
  - exact Heq.
  - unfold PeeweeStorage.get_event, PeeweeStorage._get_event, getitem.
    simpl. rewrite Hk. simpl. rewrite Heq, Hgone. done.
Qed.

Lemma peewee_delete_present_witness :
  let r := EventModel.make 1 1 100 10 "{}" in
  (PeeweeStorage.bucket_keys Sample.peewee1 !! "b1" = Some 1
   ∧ NoDup (EventModel.id <$> PeeweeStorage.events_table Sample.peewee1)
   ∧ PeeweeStorage.events_table Sample.peewee1 !! 0%nat = Some r
   ∧ EventModel.bucket r = 1)
  ∧ ∃ self',
      PeeweeStorage.delete Sample.peewee1 "b1" (EventModel.id r)
      = (Ok 1, self')
      ∧ PeeweeStorage.events_table self'
        = base.delete 0%nat (PeeweeStorage.events_table Sample.peewee1)
      ∧ PeeweeStorage.get_event Sample.loads self' "b1" (EventModel.id r)
        = Ok None.
Proof.
  intros r.
  assert (H1 : PeeweeStorage.bucket_keys Sample.peewee1 !! "b1" = Some 1)
    by reflexivity.
  assert (H2 : NoDup (EventModel.id <$> PeeweeStorage.events_table
                                          Sample.peewee1))
    by compute_done.
  assert (H3 : PeeweeStorage.events_table Sample.peewee1 !! 0%nat = Some r)
    by reflexivity.
  assert (H4 : EventModel.bucket r = 1) by reflexivity.
  split; [done|].
  exact (peewee_delete_present Sample.loads Sample.peewee1 "b1" 1 0 r
           H1 H2 H3 H4).
Defined.

(** X8: on the relational backend, with distinct primary keys, [replace]
    on the id of an event of the bucket overwrites that row in place,
    keeps its id and bucket, leaves every other row as it was, and
    [get_event] on the id then returns the new timestamp and duration
    with the payload as the codec reads it back. *)
Theorem peewee_replace_present {Data} (json_dumps : Data → string)
    (json_loads : string → Data)
    (self : PeeweeStorage.t) (bucket_id : string) (k : Z) (i : nat)
    (r : EventModel.t) (event : Event.t Z Data) :
  PeeweeStorage.bucket_keys self !! bucket_id = Some k →
  NoDup (EventModel.id <$> PeeweeStorage.events_table self) →
  PeeweeStorage.events_table self !! i = Some r →
  EventModel.bucket r = k →
  ∃ self',
    PeeweeStorage.replace json_dumps self bucket_id (EventModel.id r) event
    = (Ok (Event.set_id (Some (EventModel.id r)) event), self')
    ∧ PeeweeStorage.events_table self'
      = <[i := EventModel.make (EventModel.id r) k (Event.timestamp event)
                 (Event.duration event) (json_dumps (Event.data event))]>
          (PeeweeStorage.events_table self)
    ∧ PeeweeStorage.get_event json_loads self' bucket_id (EventModel.id r)
      = Ok (Some (Event.make (Some (EventModel.id r))
                    (Event.timestamp event) (Event.duration event)
                    (json_loads (json_dumps (Event.data event))))).
Proof.
  intros Hk Hnd Hi Hb. eexists.
  unfold PeeweeStorage.replace.
  rewrite (get_event_row self bucket_id k i r) by done.
  unfold PeeweeStorage.overwrite. simpl.
  split; [reflexivity|].
  rewrite (sql_update_insert _ _ i r Hnd Hi).
  unfold PeeweeStorage.from_event. rewrite Hb.
  split; [done|].
  set (new := EventModel.make (EventModel.id r) k (Event.timestamp event)
                (Event.duration event) (json_dumps (Event.data event))).
  set (self' := PeeweeStorage.set_events _ _ self).
  unfold PeeweeStorage.get_event.
  change (EventModel.id r) with (EventModel.id new).
  rewrite (get_event_row self' bucket_id k i new); try done.
  - simpl. rewrite list_fmap_insert. simpl.
    rewrite list_insert_id; [done|].
    by rewrite list_lookup_fmap, Hi.
  - simpl. apply list_lookup_insert_eq. by eapply lookup_lt_Some.
Qed.

Lemma peewee_replace_present_witness :
  let r := EventModel.make 1 1 100 10 "{}" in
  let event : Event.t Z string := Event.make None 120 3 "{y}"%string in
  (PeeweeStorage.bucket_keys Sample.peewee1 !! "b1" = Some 1
   ∧ NoDup (EventModel.id <$> PeeweeStorage.events_table Sample.peewee1)
   ∧ PeeweeStorage.events_table Sample.peewee1 !! 0%nat = Some r
   ∧ EventModel.bucket r = 1)
  ∧ ∃ self',
      PeeweeStorage.replace Sample.dumps Sample.peewee1 "b1"
        (EventModel.id r) event
      = (Ok (Event.set_id (Some (EventModel.id r)) event), self')
      ∧ PeeweeStorage.events_table self'
        = <[0%nat := EventModel.make (EventModel.id r) 1
                       (Event.timestamp event) (Event.duration event)
                       (Sample.dumps (Event.data event))]>
            (PeeweeStorage.events_table Sample.peewee1)
      ∧ PeeweeStorage.get_event Sample.loads self' "b1" (EventModel.id r)
        = Ok (Some (Event.make (Some (EventModel.id r))
                      (Event.timestamp event) (Event.duration event)
                      (Sample.loads (Sample.dumps (Event.data event))))).
Proof.
  intros r event.
  assert (H1 : PeeweeStorage.bucket_keys Sample.peewee1 !! "b1" = Some 1)
    by reflexivity.
  assert (H2 : NoDup (EventModel.id <$> PeeweeStorage.events_table
                                          Sample.peewee1))
    by compute_done.
  assert (H3 : PeeweeStorage.events_table Sample.peewee1 !! 0%nat = Some r)
    by reflexivity.
  assert (H4 : EventModel.bucket r = 1) by reflexivity.
  split; [done|].
  exact (peewee_replace_present Sample.dumps Sample.loads Sample.peewee1
           "b1" 1 0 r event H1 H2 H3 H4).
Defined.

(** X9: on the relational backend [insert_one] on an event that carries
    the id of an event of the bucket is [replace] on that id: same result,
    same store. *)
Theorem peewee_insert_one_with_id {Data} (json_dumps : Data → string)
    (self : PeeweeStorage.t) (bucket_id : string) (k : Z) (i : nat)
    (r : EventModel.t) (event : Event.t Z Data) :
  PeeweeStorage.bucket_keys self !! bucket_id = Some k →
  NoDup (EventModel.id <$> PeeweeStorage.events_table self) →
  PeeweeStorage.events_table self !! i = Some r →
  EventModel.bucket r = k →
  Event.id event = Some (EventModel.id r) →
  PeeweeStorage.insert_one json_dumps self bucket_id event
  = PeeweeStorage.replace json_dumps self bucket_id (EventModel.id r) event.
Proof.
  intros Hk Hnd Hi Hb Hid.
  unfold PeeweeStorage.replace.
  rewrite (get_event_row self bucket_id k i r) by done.
  unfold PeeweeStorage.insert_one, PeeweeStorage.overwrite, getitem.
  rewrite Hk, Hid, Hb. done.
Qed.

Lemma peewee_insert_one_with_id_witness :
  let r := EventModel.make 1 1 100 10 "{}" in
  let event : Event.t Z string := Event.make (Some 1) 120 3 "{y}"%string in
  (PeeweeStorage.bucket_keys Sample.peewee1 !! "b1" = Some 1
   ∧ NoDup (EventModel.id <$> PeeweeStorage.events_table Sample.peewee1)
   ∧ PeeweeStorage.events_table Sample.peewee1 !! 0%nat = Some r
   ∧ EventModel.bucket r = 1
   ∧ Event.id event = Some (EventModel.id r))
  ∧ PeeweeStorage.insert_one Sample.dumps Sample.peewee1 "b1" event
    = PeeweeStorage.replace Sample.dumps Sample.peewee1 "b1"
        (EventModel.id r) event.
Proof.
  intros r event.
  assert (H1 : PeeweeStorage.bucket_keys Sample.peewee1 !! "b1" = Some 1)
    by reflexivity.
  assert (H2 : NoDup (EventModel.id <$> PeeweeStorage.events_table
                                          Sample.peewee1))
    by compute_done.
  assert (H3 : PeeweeStorage.events_table Sample.peewee1 !! 0%nat = Some r)
    by reflexivity.
  assert (H4 : EventModel.bucket r = 1) by reflexivity.
  assert (H5 : Event.id event = Some (EventModel.id r)) by reflexivity.
  split; [done|].
  exact (peewee_insert_one_with_id Sample.dumps Sample.peewee1 "b1" 1 0 r
           event H1 H2 H3 H4 H5).
Defined.

(** X10: on the relational backend, deleting the event that [insert_one]
    has just inserted, by the id it returned, removes that one row: the
    table is as it was before the insertion, and the sequence has moved
    on. *)
Theorem peewee_insert_then_delete {Data} (json_dumps : Data → string)
    (self : PeeweeStorage.t) (bucket_id : string) (k : Z)
    (event : Event.t Z Data) :
  peewee_wf self →
  PeeweeStorage.bucket_keys self !! bucket_id = Some k →
  Event.id event = None →
  ∃ i self1 self2,
    PeeweeStorage.insert_one json_dumps self bucket_id event
    = (Ok (Event.set_id (Some i) event), self1)
    ∧ PeeweeStorage.delete self1 bucket_id i = (Ok 1, self2)
    ∧ PeeweeStorage.events_table self2 = PeeweeStorage.events_table self
    ∧ PeeweeStorage.events_seq self2 = PeeweeStorage.events_seq self + 1.
Proof.
  intros [Hnd Hlt] Hk Hid. eexists _, _, _.
  split; [by apply insert_one_fresh|].
  unfold PeeweeStorage.delete, getitem. simpl. rewrite Hk. cbv zeta.
  rewrite !filter_app.
  rewrite (filter_none _ (PeeweeStorage.events_table self)).
  2:{ intros r Hr Hhit. apply andb_true_iff in Hhit as [Hhit _].
      apply bool_decide_eq_true in Hhit. apply Hlt in Hr. lia. }
  rewrite (filter_all _ (PeeweeStorage.events_table self)).
  2:{ intros r Hr. apply andb_false_iff. left.
      apply bool_decide_eq_false. apply Hlt in Hr. lia. }
  rewrite filter_cons_True.
  2:{ simpl. rewrite bool_decide_eq_true_2 by done. apply Z.eqb_refl. }
  rewrite filter_cons_False.
  2:{ simpl. rewrite bool_decide_eq_true_2 by done.
      unfold PeeweeStorage.in_bucket. simpl. by rewrite Z.eqb_refl. }
  simpl. rewrite app_nil_r. done.
Qed.

Lemma peewee_insert_then_delete_witness :
  let event : Event.t Z string := Event.make None 300 7 "{x}"%string in
  (peewee_wf Sample.peewee1
   ∧ PeeweeStorage.bucket_keys Sample.peewee1 !! "b1" = Some 1
   ∧ Event.id event = None)
  ∧ ∃ i self1 self2,
      PeeweeStorage.insert_one Sample.dumps Sample.peewee1 "b1" event
      = (Ok (Event.set_id (Some i) event), self1)
      ∧ PeeweeStorage.delete self1 "b1" i = (Ok 1, self2)
      ∧ PeeweeStorage.events_table self2
        = PeeweeStorage.events_table Sample.peewee1
      ∧ PeeweeStorage.events_seq self2
        = PeeweeStorage.events_seq Sample.peewee1 + 1.
Proof.
  intros event.
  assert (H1 : peewee_wf Sample.peewee1).
  { split; [compute_done|]. vm_compute. intros r Hr.
    apply list_elem_of_In in Hr.
    destruct Hr as [<-|[<-|[]]]; reflexivity. }
  assert (H2 : PeeweeStorage.bucket_keys Sample.peewee1 !! "b1" = Some 1)
    by reflexivity.
  split; [done|].
  exact (peewee_insert_then_delete Sample.dumps Sample.peewee1 "b1" 1 event
           H1 H2 eq_refl).
Defined.

(** * Edge cases *)

(** X11: [replace_last] on a bucket that holds no event fails on both
    backends, with [DoesNotExist] from [.get()] on the relational one and
    with [IndexError] from [[0]] on the document store, and the stores are
    left as they were. *)
Theorem replace_last_empty_bucket {Data} (json_dumps : Data → string)
    (p : PeeweeStorage.t) (m : MongoDBStorage.t Data)
    (bucket_id : string) (k : Z)
    (event : Event.t Z Data) (event' : Event.t bson.id Data) :
  PeeweeStorage.bucket_keys p !! bucket_id = Some k →
  (∀ r, r ∈ PeeweeStorage.events_table p → EventModel.bucket r ≠ k) →
  MongoDBStorage.collection m bucket_id = [] →
  PeeweeStorage.replace_last json_dumps p bucket_id event
  = (Raise DoesNotExist, p)
  ∧ MongoDBStorage.replace_last m bucket_id event' = (Raise IndexError, m).
Proof.
  intros Hk Hnone Hempty. split.
  - unfold PeeweeStorage.replace_last, PeeweeStorage._get_last, getitem.
    rewrite Hk. simpl. rewrite filter_none; [done|].
    intros r Hr Hb. apply in_bucket_spec in Hb. by apply (Hnone r).
  - unfold MongoDBStorage.replace_last. by rewrite Hempty.
Qed.

Lemma replace_last_empty_bucket_witness :
  let event : Event.t Z string := Event.make None 300 7 "{x}"%string in
  let event' : Event.t bson.id string := Event.make None 300 7 "{x}"%string in
  (PeeweeStorage.bucket_keys Sample.peewee1 !! "b2" = Some 2
   ∧ (∀ r, r ∈ PeeweeStorage.events_table Sample.peewee1 →
           EventModel.bucket r ≠ 2)
   ∧ MongoDBStorage.collection Sample.mongo1 "b2" = [])
  ∧ PeeweeStorage.replace_last Sample.dumps Sample.peewee1 "b2" event
    = (Raise DoesNotExist, Sample.peewee1)
  ∧ MongoDBStorage.replace_last Sample.mongo1 "b2" event'
    = (Raise IndexError, Sample.mongo1).
Proof.
  intros event event'.
  assert (H1 : PeeweeStorage.bucket_keys Sample.peewee1 !! "b2" = Some 2)
    by reflexivity.
  assert (H2 : ∀ r, r ∈ PeeweeStorage.events_table Sample.peewee1 →
                    EventModel.bucket r ≠ 2).
  { vm_compute. intros r Hr. apply list_elem_of_In in Hr.
    destruct Hr as [<-|[<-|[]]]; intros [=]. }
  assert (H3 : MongoDBStorage.collection Sample.mongo1 "b2" = [])
    by reflexivity.
  split; [done|].
  exact (replace_last_empty_bucket Sample.dumps Sample.peewee1 Sample.mongo1
           "b2" 2 event event' H1 H2 H3).
Defined.

(** X12: on the relational backend every event operation on a bucket id
    that [bucket_keys] does not hold raises [KeyError] and leaves the
    store as it was; the two exceptions are [get_events] with limit 0 and
    [insert_many] with no event, which never look the key up. *)
Theorem peewee_unknown_bucket {Data} (json_dumps : Data → string)
    (json_loads : string → Data) (self : PeeweeStorage.t)
    (bucket_id : string) (event : Event.t Z Data)
    (events : list (Event.t Z Data)) (event_id limit : Z)
    (starttime endtime : option datetime) :
  PeeweeStorage.bucket_keys self !! bucket_id = None →
  PeeweeStorage.insert_one json_dumps self bucket_id event
  = (Raise (KeyError bucket_id), self)
  ∧ PeeweeStorage.replace json_dumps self bucket_id event_id event
    = (Raise (KeyError bucket_id), self)
  ∧ PeeweeStorage.replace_last json_dumps self bucket_id event
    = (Raise (KeyError bucket_id), self)
  ∧ PeeweeStorage.delete self bucket_id event_id
    = (Raise (KeyError bucket_id), self)
  ∧ PeeweeStorage.get_event json_loads self bucket_id event_id
    = Raise (KeyError bucket_id)
  ∧ PeeweeStorage.get_eventcount self bucket_id starttime endtime
    = Raise (KeyError bucket_id)
  ∧ (limit ≠ 0 →
     PeeweeStorage.get_events json_loads self bucket_id limit
       starttime endtime = Raise (KeyError bucket_id))
  ∧ PeeweeStorage.get_events json_loads self bucket_id 0 starttime endtime
    = Ok []
  ∧ (events ≠ [] →
     PeeweeStorage.insert_many json_dumps self bucket_id events
     = (Raise (KeyError bucket_id), self))
  ∧ PeeweeStorage.insert_many json_dumps self bucket_id []
    = (Ok tt, self).
Proof.
  intros Hk.
  assert (Hone : ∀ e, PeeweeStorage.insert_one json_dumps self bucket_id e
                      = (Raise (KeyError bucket_id), self)).
  { intros e. unfold PeeweeStorage.insert_one, getitem. by rewrite Hk. }
  split; [apply Hone|].
  split; [unfold PeeweeStorage.replace, PeeweeStorage._get_event, getitem;
          by rewrite Hk|].
  split; [unfold PeeweeStorage.replace_last, PeeweeStorage._get_last, getitem;
          by rewrite Hk|].
  split; [unfold PeeweeStorage.delete, getitem; by rewrite Hk|].
  split; [unfold PeeweeStorage.get_event, PeeweeStorage._get_event, getitem;
          by rewrite Hk|].
  split; [unfold PeeweeStorage.get_eventcount, getitem; by rewrite Hk|].
  split.
  { intros Hl. unfold PeeweeStorage.get_events, getitem. rewrite Hk.
    by destruct (Z.eqb_spec limit 0). }
  split; [done|]. split.
  - intros Hne. unfold PeeweeStorage.insert_many.
    match goal with
    | |- context [PeeweeStorage.insert_each _ _ _ ?l] =>
        destruct l as [|u us] eqn:Hups
    end.
    + simpl. unfold getitem. rewrite Hk.
      rewrite bool_decide_eq_false_2; [done|].
      destruct events as [|a events]; [done|].
      assert (Ha : PeeweeStorage.has_id a = false).
      { apply not_true_is_false. intros Ha.
        rewrite filter_cons_True in Hups by done. done. }
      by rewrite filter_cons_True.
    + simpl. by rewrite Hone.
  - unfold PeeweeStorage.insert_many. simpl. unfold getitem. by rewrite Hk.
Qed.

Lemma peewee_unknown_bucket_witness :
  let event : Event.t Z string := Event.make None 300 7 "{x}"%string in
  PeeweeStorage.bucket_keys Sample.peewee1 !! "b9" = None
  ∧ PeeweeStorage.insert_one Sample.dumps Sample.peewee1 "b9" event
    = (Raise (KeyError "b9"), Sample.peewee1)
  ∧ PeeweeStorage.insert_many Sample.dumps Sample.peewee1 "b9" [event]
    = (Raise (KeyError "b9"), Sample.peewee1).
Proof.
  intros event.
  assert (H : PeeweeStorage.bucket_keys Sample.peewee1 !! "b9" = None)
    by reflexivity.
  split; [exact H|].
  destruct (peewee_unknown_bucket Sample.dumps Sample.loads Sample.peewee1
              "b9" event [event] 1 (-1) None None H)
    as (H1 & _ & _ & _ & _ & _ & _ & _ & H9 & _).
  split; [exact H1|]. apply H9. discriminate.
Defined.

(** * Buckets on the relational backend *)

Section DictFacts.
Context {V : Type}.
Implicit Types (l : list (string * V)).

Lemma dict_of_list_snoc l (k : string) (v : V) :
  dict_of_list (l ++ [(k, v)]) = <[k := v]> (dict_of_list l).
Proof. unfold dict_of_list. by rewrite foldl_snoc. Qed.

Lemma dict_of_list_lookup_Some l (k : string) (v : V) :
  dict_of_list l !! k = Some v → (k, v) ∈ l.
Proof.
  induction l as [|[k' v'] l IH] using rev_ind; [done|].
  rewrite dict_of_list_snoc, elem_of_app, list_elem_of_singleton.
  destruct (decide (k' = k)) as [->|Hne].
  - rewrite lookup_insert_eq. intros [= ->]. by right.
  - rewrite lookup_insert_ne by done. intros H. left. by apply IH.
Qed.

Lemma dict_of_list_lookup_None l (k : string) :
  k ∉ l.*1 → dict_of_list l !! k = None.
Proof.
  induction l as [|[k' v'] l IH] using rev_ind; [done|].
  rewrite fmap_app, dict_of_list_snoc. simpl.
  intros Hk. apply not_elem_of_app in Hk as [Hk Hk'].
  apply not_elem_of_cons in Hk' as [Hne _].
  rewrite lookup_insert_ne by done. by apply IH.
Qed.

Lemma nodup_fst_functional l (k : string) (v v' : V) :
  NoDup l.*1 → (k, v) ∈ l → (k, v') ∈ l → v = v'.
Proof.
  induction l as [|[k0 v0] l IH]; intros Hnd Hv Hv'.
  - by apply elem_of_nil in Hv.
  - rewrite fmap_cons in Hnd. apply NoDup_cons in Hnd as [Hk0 Hnd].
    apply elem_of_cons in Hv as [Hv|Hv], Hv' as [Hv'|Hv'].
    + congruence.
    + exfalso. injection Hv as -> ->. apply Hk0.
      apply list_elem_of_fmap. by exists (k0, v').
    + exfalso. injection Hv' as -> ->. apply Hk0.
      apply list_elem_of_fmap. by exists (k0, v).
    + by apply IH.
Qed.

Lemma dict_of_list_lookup_nodup l (k : string) (v : V) :
  NoDup l.*1 → (k, v) ∈ l → dict_of_list l !! k = Some v.
Proof.
  intros Hnd Hv. destruct (dict_of_list l !! k) as [v'|] eqn:Hl.
  - apply dict_of_list_lookup_Some in Hl. f_equal.
    by eapply nodup_fst_functional.
  - exfalso. destruct (decide (k ∈ l.*1)) as [Hin|Hnin].
    + clear Hin. revert Hl. induction l as [|[k' v'] l IH] using rev_ind.
      * by apply elem_of_nil in Hv.
      * rewrite dict_of_list_snoc. rewrite fmap_app in Hnd.
        apply NoDup_app in Hnd as (Hnd & _ & _).
        apply elem_of_app in Hv as [Hv|Hv].
        -- destruct (decide (k' = k)) as [->|Hne].
           ++ by rewrite lookup_insert_eq.
           ++ rewrite lookup_insert_ne by done. by apply IH.
        -- apply list_elem_of_singleton in Hv as [= -> ->].
           by rewrite lookup_insert_eq.
    + apply Hnin. apply list_elem_of_fmap. by exists (k, v).
Qed.
End DictFacts.

Section PeeweeBuckets.
Import PeeweeStorage PeeweeDirectory.

Lemma bucket_pairs_fst (tbl : list BucketModel.t) (f : BucketModel.t → Z) :
  ((λ b, (BucketModel.id b, f b)) <$> tbl).*1 = BucketModel.id <$> tbl.
Proof. by rewrite <- list_fmap_compose. Qed.

Lemma bucket_keys_lookup (self : t) (bucket_id : string) (k : Z) :
  peewee_buckets_wf self →
  bucket_keys self !! bucket_id = Some k
  ↔ ∃ b, b ∈ buckets_table self ∧ BucketModel.id b = bucket_id
         ∧ BucketModel.key b = k.
Proof.
  intros (Hid & _ & ->). simpl. split.
  - intros Hl. apply dict_of_list_lookup_Some in Hl.
    apply list_elem_of_fmap in Hl as (b & [= -> ->] & Hb). by exists b.
  - intros (b & Hb & <- & <-). apply dict_of_list_lookup_nodup.
    + by rewrite <- list_fmap_compose.
    + apply list_elem_of_fmap. by exists b.
Qed.
End PeeweeBuckets.

(** X13: on the relational backend, creating a bucket under an id and a
    key that the table does not hold succeeds: the id then resolves to the
    key, [get_metadata] reports the name, type, client and hostname given
    and an empty [created], whatever creation time was passed, the events
    are untouched, and creating the same id again fails and changes
    nothing. *)
Theorem peewee_create_bucket_metadata (key key' : Z) (self : PeeweeStorage.t)
    (bucket_id type_id client hostname created : string)
    (type_id' client' hostname' created' : string)
    (name name' : option string) :
  bucket_id ∉ BucketModel.id <$> PeeweeStorage.buckets_table self →
  key ∉ BucketModel.key <$> PeeweeStorage.buckets_table self →
  ∃ self',
    PeeweeDirectory.create_bucket key self bucket_id type_id client hostname
      created name = (Ok tt, self')
    ∧ PeeweeStorage.bucket_keys self' !! bucket_id = Some key
    ∧ PeeweeDirectory.get_metadata self' bucket_id
      = Ok (Metadata.make bucket_id "" name type_id client hostname)
    ∧ PeeweeStorage.events_table self' = PeeweeStorage.events_table self
    ∧ PeeweeDirectory.create_bucket key' self' bucket_id type_id' client'
        hostname' created' name'
      = (Raise (Exception "IntegrityError"), self').
Proof.
  intros Hid Hkey. eexists. unfold PeeweeDirectory.create_bucket at 1.
  rewrite bool_decide_eq_false_2 by done.
  rewrite bool_decide_eq_false_2 by done. simpl.
  split; [reflexivity|].
  assert (Hlook : dict_of_list
                    ((λ b, (BucketModel.id b, BucketModel.key b)) <$>
                       PeeweeStorage.buckets_table self
                       ++ [BucketModel.make key bucket_id created name
                             type_id client hostname]) !! bucket_id
                  = Some key).
  { rewrite fmap_app. simpl. rewrite dict_of_list_snoc.
    apply lookup_insert_eq. }
  split; [exact Hlook|]. split; [|split; [done|]].
  - unfold PeeweeDirectory.get_metadata. simpl. rewrite Hlook.
    rewrite filter_app, filter_none.
    + by rewrite filter_cons_True.
    + intros b Hb Heq. apply Hkey. rewrite <- Heq.
      apply list_elem_of_fmap. by exists b.
  - unfold PeeweeDirectory.create_bucket. simpl.
    rewrite bool_decide_eq_true_2; [done|].
    rewrite fmap_app. apply elem_of_app. right. simpl. left.
Qed.

Lemma peewee_create_bucket_metadata_witness :
  (("b3"%string ∉ BucketModel.id <$>
                    PeeweeStorage.buckets_table Sample.peewee1)
   ∧ (3 ∉ BucketModel.key <$> PeeweeStorage.buckets_table Sample.peewee1))
  ∧ ∃ self',
      PeeweeDirectory.create_bucket 3 Sample.peewee1 "b3" "afk" "c" "h"
        "2024-02-02" None = (Ok tt, self')
      ∧ PeeweeStorage.bucket_keys self' !! "b3" = Some 3
      ∧ PeeweeDirectory.get_metadata self' "b3"
        = Ok (Metadata.make "b3" "" None "afk" "c" "h")
      ∧ PeeweeStorage.events_table self'
        = PeeweeStorage.events_table Sample.peewee1
      ∧ PeeweeDirectory.create_bucket 4 self' "b3" "web" "c2" "h2"
          "2024-03-03" (Some "n"%string)
        = (Raise (Exception "IntegrityError"), self').
Proof.
  assert (H1 : "b3"%string ∉ BucketModel.id <$>
                               PeeweeStorage.buckets_table Sample.peewee1)
    by compute_done.
  assert (H2 : 3 ∉ BucketModel.key <$>
                     PeeweeStorage.buckets_table Sample.peewee1)
    by compute_done.
  split; [done|].
  exact (peewee_create_bucket_metadata 3 4 Sample.peewee1 "b3" "afk" "c" "h"
           "2024-02-02" "web" "c2" "h2" "2024-03-03" None (Some "n"%string)
           H1 H2).
Defined.

Lemma nodup_fmap_eq {A B} (f : A → B) (l : list A) (x y : A) :
  NoDup (f <$> l) → x ∈ l → y ∈ l → f x = f y → x = y.
Proof.
  intros Hnd Hx Hy Hf.
  apply list_elem_of_lookup_1 in Hx as [i Hi].
  apply list_elem_of_lookup_1 in Hy as [j Hj].
  assert (i = j) as ->.
  { apply (NoDup_lookup _ i j (f x) Hnd).
    - by rewrite list_lookup_fmap, Hi.
    - by rewrite list_lookup_fmap, Hj, Hf. }
  congruence.
Qed.

Lemma nodup_fmap_filter {A B} (f : A → B) (P : A → Prop)
    `{∀ x, Decision (P x)} (l : list A) :
  NoDup (f <$> l) → NoDup (f <$> filter P l).
Proof.
  intros Hnd. eapply sublist_NoDup; [exact Hnd|].
  apply fmap_sublist, sublist_filter.
Qed.

(** X14: on the relational backend, deleting a bucket that [bucket_keys]
    resolves removes its events and no others, keeps the remaining rows in
    their order, and forgets the bucket: its id no longer resolves,
    [get_metadata] fails, and every other id resolves as before. *)
Theorem peewee_delete_bucket_cascade (self : PeeweeStorage.t)
    (bucket_id : string) (k : Z) :
  peewee_buckets_wf self →
  PeeweeStorage.bucket_keys self !! bucket_id = Some k →
  ∃ self',
    PeeweeDirectory.delete_bucket self bucket_id = (Ok tt, self')
    ∧ (∀ r, r ∈ PeeweeStorage.events_table self'
            ↔ r ∈ PeeweeStorage.events_table self ∧ EventModel.bucket r ≠ k)
    ∧ PeeweeStorage.events_table self'
      `sublist_of` PeeweeStorage.events_table self
    ∧ PeeweeStorage.bucket_keys self' !! bucket_id = None
    ∧ PeeweeDirectory.get_metadata self' bucket_id
      = Raise (Exception "Bucket did not exist, could not get metadata")
    ∧ (∀ b, b ≠ bucket_id →
            PeeweeStorage.bucket_keys self' !! b
            = PeeweeStorage.bucket_keys self !! b)
    ∧ peewee_buckets_wf self'.
Proof.
  intros Hwf Hk. pose proof Hwf as (Hid & Hkey & Hkeys).
  apply (bucket_keys_lookup _ _ _ Hwf) in Hk as Hrow.
  destruct Hrow as (b0 & Hb0 & Hb0id & Hb0key).
  eexists. unfold PeeweeDirectory.delete_bucket. rewrite Hk.
  split; [reflexivity|]. simpl.
  set (rest := filter (λ b, BucketModel.key b ≠ k)
                 (PeeweeStorage.buckets_table self)).
  assert (Hrest : ∀ b, b ∈ rest ↔ b ∈ PeeweeStorage.buckets_table self
                                  ∧ BucketModel.key b ≠ k).
  { intros b. unfold rest. rewrite list_elem_of_filter. tauto. }
  assert (Hwf' : peewee_buckets_wf
                   (PeeweeStorage.update_bucket_keys
                      (PeeweeDirectory.set_buckets rest
                         (PeeweeStorage.set_events
                            (filter (λ r, EventModel.bucket r ≠ k)
                               (PeeweeStorage.events_table self))
                            (PeeweeStorage.events_seq self) self)))).
  { split; [by apply nodup_fmap_filter|].
    split; [by apply nodup_fmap_filter|done]. }
  assert (Hgone : dict_of_list
                    ((λ b, (BucketModel.id b, BucketModel.key b)) <$> rest)
                  !! bucket_id = None).
  { apply dict_of_list_lookup_None. rewrite <- list_fmap_compose.
    intros Hin. apply list_elem_of_fmap in Hin as (b & Hbid & Hb).
    apply Hrest in Hb as [Hb Hbk]. simpl in Hbid.
    assert (b = b0) as -> by (eapply (nodup_fmap_eq BucketModel.id);
                               [done..|congruence]).
    done. }
  split; [intros r; rewrite list_elem_of_filter; tauto|].
  split; [apply sublist_filter|].
  split; [exact Hgone|].
  split; [unfold PeeweeDirectory.get_metadata; simpl; by rewrite Hgone|].
  split; [|exact Hwf'].
  intros b Hb.
  destruct (PeeweeStorage.bucket_keys self !! b) as [k'|] eqn:Hl.
  - apply (bucket_keys_lookup _ _ _ Hwf) in Hl as (b1 & Hb1 & Hb1id & Hb1key).
    apply (bucket_keys_lookup _ _ _ Hwf'). exists b1. simpl.
    split; [|done]. apply Hrest. split; [done|].
    intros Heq. apply Hb. rewrite <- Hb1id, <- Hb0id. f_equal.
    eapply (nodup_fmap_eq BucketModel.key); [done..|congruence].
  - destruct (dict_of_list ((λ b, (BucketModel.id b, BucketModel.key b))
                              <$> rest) !! b) as [k'|] eqn:Hl'; [|done].
    exfalso. apply dict_of_list_lookup_Some in Hl'.
    apply list_elem_of_fmap in Hl' as (b1 & [= -> ->] & Hb1).
    apply Hrest in Hb1 as [Hb1 _].
    assert (Hsome : PeeweeStorage.bucket_keys self !! BucketModel.id b1
                    = Some (BucketModel.key b1)).
    { apply (bucket_keys_lookup _ _ _ Hwf). by exists b1. }
    congruence.
Qed.

Lemma peewee_delete_bucket_cascade_witness :
  (peewee_buckets_wf Sample.peewee1
   ∧ PeeweeStorage.bucket_keys Sample.peewee1 !! "b1" = Some 1)
  ∧ ∃ self',
      PeeweeDirectory.delete_bucket Sample.peewee1 "b1" = (Ok tt, self')
      ∧ (∀ r, r ∈ PeeweeStorage.events_table self'
              ↔ r ∈ PeeweeStorage.events_table Sample.peewee1
                ∧ EventModel.bucket r ≠ 1)
      ∧ PeeweeStorage.events_table self'
        `sublist_of` PeeweeStorage.events_table Sample.peewee1
      ∧ PeeweeStorage.bucket_keys self' !! "b1" = None
      ∧ PeeweeDirectory.get_metadata self' "b1"
        = Raise (Exception "Bucket did not exist, could not get metadata")
      ∧ (∀ b, b ≠ "b1"%string →
              PeeweeStorage.bucket_keys self' !! b
              = PeeweeStorage.bucket_keys Sample.peewee1 !! b)
      ∧ peewee_buckets_wf self'.
Proof.
  assert (H1 : peewee_buckets_wf Sample.peewee1).
  { split; [compute_done|]. split; [compute_done|reflexivity]. }
  assert (H2 : PeeweeStorage.bucket_keys Sample.peewee1 !! "b1" = Some 1)
    by reflexivity.
  split; [done|].
  exact (peewee_delete_bucket_cascade Sample.peewee1 "b1" 1 H1 H2).
Defined.

(** X15: on the relational backend, with distinct bucket ids, [buckets]
    lists exactly the rows of the bucket table, each under its id, with
    its name, type, client and hostname and with an empty [created]. *)
Theorem peewee_buckets_lookup (self : PeeweeStorage.t) (bucket_id : string)
    (md : Metadata.t) :
  NoDup (BucketModel.id <$> PeeweeStorage.buckets_table self) →
  PeeweeStorage.buckets self !! bucket_id = Some md
  ↔ ∃ b, b ∈ PeeweeStorage.buckets_table self
         ∧ BucketModel.id b = bucket_id
         ∧ md = Metadata.make bucket_id "" (BucketModel.name b)
                  (BucketModel.type b) (BucketModel.client b)
                  (BucketModel.hostname b).
Proof.
  intros Hnd. unfold PeeweeStorage.buckets. split.
  - intros Hl. apply dict_of_list_lookup_Some in Hl.
    apply list_elem_of_fmap in Hl as (b & [= -> ->] & Hb). by exists b.
  - intros (b & Hb & <- & ->). apply dict_of_list_lookup_nodup.
    + by rewrite <- list_fmap_compose.
    + apply list_elem_of_fmap. by exists b.
Qed.

Lemma peewee_buckets_lookup_witness :
  NoDup (BucketModel.id <$> PeeweeStorage.buckets_table Sample.peewee1)
  ∧ (PeeweeStorage.buckets Sample.peewee1 !! "b1"
     = Some (Metadata.make "b1" "" None "afk" "test" "host")
     ↔ ∃ b, b ∈ PeeweeStorage.buckets_table Sample.peewee1
            ∧ BucketModel.id b = "b1"%string
            ∧ Metadata.make "b1" "" None "afk" "test" "host"
              = Metadata.make "b1" "" (BucketModel.name b)
                  (BucketModel.type b) (BucketModel.client b)
                  (BucketModel.hostname b)).
Proof.
  assert (H : NoDup (BucketModel.id <$>
                       PeeweeStorage.buckets_table Sample.peewee1))
    by compute_done.
  split; [exact H|].
  exact (peewee_buckets_lookup Sample.peewee1 "b1"
           (Metadata.make "b1" "" None "afk" "test" "host") H).
Defined.

(** * Buckets on the document store *)

Section CollectionNames.

Lemma list_ascii_of_string_inj (s1 s2 : string) :
  list_ascii_of_string s1 = list_ascii_of_string s2 → s1 = s2.
Proof.
  intros H. rewrite <- (string_of_list_ascii_of_string s1),
              <- (string_of_list_ascii_of_string s2). by rewrite H.
Qed.

Lemma append_inj_l (s1 s2 suffix : string) :
  s1 +:+ suffix = s2 +:+ suffix → s1 = s2.
Proof.
  intros H. apply list_ascii_of_string_inj.
  apply (f_equal list_ascii_of_string) in H.
  rewrite !list_ascii_of_string_app in H. by apply app_inv_tail in H.
Qed.

Lemma last_of_append (s : string) (l : list ascii) (c : ascii)
    (suffix : string) :
  list_ascii_of_string suffix = l ++ [c] →
  last (list_ascii_of_string (s +:+ suffix)) = Some c.
Proof.
  intros H. rewrite list_ascii_of_string_app, H, app_assoc.
  apply last_snoc.
Qed.

Lemma metadata_name_not_events (b b' : string) :
  b +:+ ".metadata" ≠ b' +:+ ".events".
Proof.
  intros H. apply (f_equal (λ s, last (list_ascii_of_string s))) in H.
  rewrite (last_of_append b (list_ascii_of_string ".metadat") "a") in H
    by done.
  rewrite (last_of_append b' (list_ascii_of_string ".event") "s") in H
    by done.
  discriminate.
Qed.

Lemma metadata_name_not_users (b : string) : b +:+ ".metadata" ≠ "users".
Proof.
  intros H. apply (f_equal (λ s, last (list_ascii_of_string s))) in H.
  rewrite (last_of_append b (list_ascii_of_string ".metadat") "a") in H
    by done.
  discriminate.
Qed.

(** The metadata collection of a bucket is listed exactly when the bucket
    has metadata. *)
Lemma metadata_listed {Data} (self : MongoDBStorage.t Data) (b : string) :
  b +:+ ".metadata" ∈ MongoDBStorage.list_collection_names self
  ↔ is_Some (MongoDBStorage.db_metadata self !! b).
Proof.
  unfold MongoDBStorage.list_collection_names.
  rewrite !elem_of_app, !list_elem_of_fmap. split.
  - intros [(b' & Heq & _)|[(b' & Heq & Hb')|Hu]].
    + by apply metadata_name_not_events in Heq.
    + apply append_inj_l in Heq as ->.
      by apply elem_of_elements, elem_of_dom in Hb'.
    + apply list_elem_of_singleton in Hu.
      by apply metadata_name_not_users in Hu.
  - intros Hb. right. left. exists b. split; [done|].
    by apply elem_of_elements, elem_of_dom.
Qed.
End CollectionNames.

(** X16: on the document store, creating a bucket that has no metadata
    yet stores the metadata as given, with the bucket id as name when the
    name is missing or empty; [get_metadata] returns it, no events
    collection changes, and creating the bucket again fails with a
    duplicate key and changes nothing. *)
Theorem mongo_create_bucket_metadata {Data} (m : MongoDBStorage.t Data)
    (bucket_id type_id client hostname created : string)
    (type_id' client' hostname' created' : string)
    (name name' : option string) :
  MongoDBStorage.db_metadata m !! bucket_id = None →
  ∃ m',
    MongoDirectory.create_bucket m bucket_id type_id client hostname created
      name = (Ok tt, m')
    ∧ MongoDBStorage.get_metadata m' bucket_id
      = Ok (Metadata.make bucket_id created
              (Some (match name with
                     | Some n => if bool_decide (n = ""%string)
                                 then bucket_id else n
                     | None => bucket_id
                     end))
              type_id client hostname)
    ∧ MongoDBStorage.db_events m' = MongoDBStorage.db_events m
    ∧ MongoDirectory.create_bucket m' bucket_id type_id' client' hostname'
        created' name'
      = (Raise (Exception "DuplicateKeyError"), m').
Proof.
  intros Hnone. eexists. unfold MongoDirectory.create_bucket at 1.
  rewrite Hnone. split; [reflexivity|].
  unfold MongoDBStorage.get_metadata, MongoDirectory.create_bucket. simpl.
  by rewrite !lookup_insert_eq.
Qed.

Lemma mongo_create_bucket_metadata_witness :
  MongoDBStorage.db_metadata Sample.mongo1 !! "b1" = None
  ∧ ∃ m',
      MongoDirectory.create_bucket Sample.mongo1 "b1" "afk" "c" "h"
        "2024-02-02" (Some ""%string) = (Ok tt, m')
      ∧ MongoDBStorage.get_metadata m' "b1"
        = Ok (Metadata.make "b1" "2024-02-02"
                (Some (match Some ""%string with
                       | Some n => if bool_decide (n = ""%string)
                                   then "b1"%string else n
                       | None => "b1"%string
                       end))
                "afk" "c" "h")
      ∧ MongoDBStorage.db_events m' = MongoDBStorage.db_events Sample.mongo1
      ∧ MongoDirectory.create_bucket m' "b1" "web" "c2" "h2" "2024-03-03"
          None
        = (Raise (Exception "DuplicateKeyError"), m').
Proof.
  assert (H : MongoDBStorage.db_metadata Sample.mongo1 !! "b1" = None)
    by reflexivity.
  split; [exact H|].
  exact (mongo_create_bucket_metadata Sample.mongo1 "b1" "afk" "c" "h"
           "2024-02-02" "web" "c2" "h2" "2024-03-03" (Some ""%string) None H).
Defined.

(** X17: on the document store [delete_bucket] goes by the metadata: a
    bucket that has metadata loses its events and its metadata, and the
    other buckets keep theirs; a bucket without metadata cannot be
    deleted — the call fails and changes nothing — even when events were
    inserted under its id. *)
Theorem mongo_delete_bucket_spec {Data} (m : MongoDBStorage.t Data)
    (bucket_id : string) :
  (is_Some (MongoDBStorage.db_metadata m !! bucket_id) →
   ∃ m',
     MongoDirectory.delete_bucket m bucket_id = (Ok tt, m')
     ∧ MongoDBStorage.collection m' bucket_id = []
     ∧ MongoDBStorage.get_metadata m' bucket_id
       = Raise (Exception "Bucket did not exist, could not get metadata")
     ∧ ∀ b, b ≠ bucket_id →
            MongoDBStorage.collection m' b = MongoDBStorage.collection m b
            ∧ MongoDBStorage.get_metadata m' b
              = MongoDBStorage.get_metadata m b)
  ∧ (MongoDBStorage.db_metadata m !! bucket_id = None →
     MongoDirectory.delete_bucket m bucket_id
     = (Raise (Exception "Bucket did not exist, could not delete"), m)).
Proof.
  unfold MongoDirectory.delete_bucket. split.
  - intros Hsome. rewrite bool_decide_eq_true_2 by (by apply metadata_listed).
    eexists. split; [reflexivity|].
    unfold MongoDBStorage.collection, MongoDBStorage.get_metadata. simpl.
    rewrite !lookup_delete_eq. split; [done|]. split; [done|].
    intros b Hb. by rewrite !lookup_delete_ne.
  - intros Hnone. rewrite bool_decide_eq_false_2; [done|].
    rewrite metadata_listed, Hnone. by intros [? ?].
Qed.

Lemma mongo_delete_bucket_spec_witness :
  (MongoDBStorage.db_metadata Sample.mongo1 !! "b1" = None
   ∧ MongoDBStorage.collection Sample.mongo1 "b1" ≠ [])
  ∧ MongoDirectory.delete_bucket Sample.mongo1 "b1"
    = (Raise (Exception "Bucket did not exist, could not delete"),
       Sample.mongo1).
Proof.
  assert (H : MongoDBStorage.db_metadata Sample.mongo1 !! "b1" = None)
    by reflexivity.
  split; [split; [exact H|by vm_compute]|].
  exact (proj2 (mongo_delete_bucket_spec Sample.mongo1 "b1") H).
Defined.

(** X18: on the document store [create_bucket] does not touch the cache of
    [buckets].  When the cache holds the current list, a bucket created
    within the freshness window exists — [get_metadata] returns it — but
    [buckets] still answers with the old snapshot, which does not list
    it; the first call after the window lists it, unless its id is one of
    the two discarded names. *)
Theorem mongo_buckets_stale_after_create {Data} (now now' later later' : Z)
    (m : MongoDBStorage.t Data)
    (bucket_id type_id client hostname created : string)
    (name : option string) :
  MongoDBStorage.cached_buckets m = Some (MongoDBStorage.enumerate m) →
  now - MongoDBStorage.last_cached_ms m < seconds 6000 →
  seconds 6000 ≤ later - MongoDBStorage.last_cached_ms m →
  MongoDBStorage.db_metadata m !! bucket_id = None →
  ∃ m' md snapshot,
    MongoDirectory.create_bucket m bucket_id type_id client hostname created
      name = (Ok tt, m')
    ∧ MongoDBStorage.get_metadata m' bucket_id = Ok md
    ∧ MongoDBStorage.buckets now now' m' = (Some snapshot, m')
    ∧ snapshot !! bucket_id = None
    ∧ (bucket_id ≠ "system"%string → bucket_id ≠ "user"%string →
       ∃ snapshot' m'',
         MongoDBStorage.buckets later later' m' = (Some snapshot', m'')
         ∧ snapshot' !! bucket_id = Some md).
Proof.
  intros Hcache Hfresh Hstale Hnone. eexists _, _, _.
  unfold MongoDirectory.create_bucket. rewrite Hnone.
  split; [reflexivity|].
  split; [unfold MongoDBStorage.get_metadata; simpl;
          by rewrite lookup_insert_eq|].
  unfold MongoDBStorage.buckets. simpl.
  destruct (Z.ltb_spec (now - MongoDBStorage.last_cached_ms m) (seconds 6000));
    [|lia].
  destruct (Z.ltb_spec (later - MongoDBStorage.last_cached_ms m)
              (seconds 6000)); [lia|].
  split; [by rewrite Hcache|]. split.
  - rewrite enumerate_lookup, Hnone. by case_decide.
  - intros Hs Hu. eexists _, _. split; [reflexivity|].
    rewrite enumerate_lookup. simpl. rewrite lookup_insert_eq.
    rewrite decide_False; [done|]. by intros [?|?].
Qed.

Lemma mongo_buckets_stale_after_create_witness :
  let m : MongoDBStorage.t string :=
    MongoDBStorage.make ∅ ∅ [] 0%N (Some ∅) (seconds 1000) in
  (MongoDBStorage.cached_buckets m = Some (MongoDBStorage.enumerate m)
   ∧ seconds 2000 - MongoDBStorage.last_cached_ms m < seconds 6000
   ∧ seconds 6000 ≤ seconds 9000 - MongoDBStorage.last_cached_ms m
   ∧ MongoDBStorage.db_metadata m !! "b1" = None)
  ∧ ∃ m' md snapshot,
      MongoDirectory.create_bucket m "b1" "afk" "c" "h" "2024-02-02" None
      = (Ok tt, m')
      ∧ MongoDBStorage.get_metadata m' "b1" = Ok md
      ∧ MongoDBStorage.buckets (seconds 2000) (seconds 2001) m'
        = (Some snapshot, m')
      ∧ snapshot !! "b1" = None
      ∧ ("b1"%string ≠ "system"%string → "b1"%string ≠ "user"%string →
         ∃ snapshot' m'',
           MongoDBStorage.buckets (seconds 9000) (seconds 9001) m'
           = (Some snapshot', m'')
           ∧ snapshot' !! "b1" = Some md).
Proof.
  intros m.
  assert (H1 : MongoDBStorage.cached_buckets m
               = Some (MongoDBStorage.enumerate m)) by reflexivity.
  assert (H2 : seconds 2000 - MongoDBStorage.last_cached_ms m < seconds 6000)
    by (vm_compute; reflexivity).
  assert (H3 : seconds 6000 ≤ seconds 9000 - MongoDBStorage.last_cached_ms m)
    by (vm_compute; discriminate).
  assert (H4 : MongoDBStorage.db_metadata m !! "b1" = None) by reflexivity.
  split; [done|].
  exact (mongo_buckets_stale_after_create (seconds 2000) (seconds 2001)
           (seconds 9000) (seconds 9001) m "b1" "afk" "c" "h" "2024-02-02"
           None H1 H2 H3 H4).
Defined.

(** * Identifiers on the document store *)





(** * Writes on the document store *)

Section MongoWrites.
Import MongoDBStorage.
Context {Data : Type}.
Implicit Types (l : list (EventDoc.t Data)) (d : EventDoc.t Data).

Lemma to_docs_length (oid : N) (events : list (Event.t bson.id Data)) :
  length (to_docs oid events) = length events.
Proof.
  revert oid. induction events as [|e events IH]; intros oid; [done|].
  simpl. by rewrite IH.
Qed.

Lemma to_docs_ids (oid : N) (events : list (Event.t bson.id Data)) d :
  d ∈ to_docs oid events →
  ∃ n, EventDoc._id d = bson.ObjectId n
       ∧ (oid ≤ n < oid + N.of_nat (length events))%N.
Proof.
  revert oid. induction events as [|e events IH]; intros oid Hd.
  - by apply elem_of_nil in Hd.
  - simpl in Hd. apply elem_of_cons in Hd as [->|Hd].
    + exists oid. split; [done|]. simpl. lia.
    + destruct (IH _ Hd) as (n & Hn & Hr). exists n. split; [done|].
      simpl. lia.
Qed.

Lemma to_docs_nodup (oid : N) (events : list (Event.t bson.id Data)) :
  NoDup (EventDoc._id <$> to_docs oid events).
Proof.
  revert oid. induction events as [|e events IH]; intros oid.
  - constructor.
  - cbn [to_docs]. rewrite fmap_cons. apply NoDup_cons. split; [|apply IH].
    intros Hin. apply list_elem_of_fmap in Hin as (d & Hid & Hd).
    destruct (to_docs_ids _ _ _ Hd) as (n & Hn & Hr).
    simpl in Hid. rewrite Hn in Hid. injection Hid as ->. lia.
Qed.

Lemma to_docs_content (oid : N) (events : list (Event.t bson.id Data)) :
  Event.content <$> (to_event <$> to_docs oid events)
  = Event.content <$> events.
Proof.
  revert oid. induction events as [|e events IH]; intros oid; [done|].
  simpl. by rewrite IH.
Qed.

Lemma get_eventcount_all (self : t Data) (bucket_id : string) :
  get_eventcount self bucket_id None None
  = Z.of_nat (length (collection self bucket_id)).
Proof. unfold get_eventcount. by rewrite filter_all. Qed.

Lemma nodup_oid_lookup l (i j : nat) d d' :
  NoDup (EventDoc._id <$> l) → l !! i = Some d → l !! j = Some d' →
  EventDoc._id d' = EventDoc._id d → j = i.
Proof.
  intros Hnd Hi Hj Heq.
  apply (NoDup_lookup _ j i (EventDoc._id d) Hnd).
  - by rewrite list_lookup_fmap, Hj, <- Heq.
  - by rewrite list_lookup_fmap, Hi.
Qed.

Lemma delete_one_unique l (i : nat) d :
  NoDup (EventDoc._id <$> l) → l !! i = Some d →
  delete_one (has_id (EventDoc._id d)) l = (base.delete i l, 1).
Proof.
  revert i. induction l as [|a l IH]; intros i Hnd Hi; [done|].
  rewrite fmap_cons in Hnd. apply NoDup_cons in Hnd as [Ha Hnd].
  destruct i as [|i]; simpl in Hi.
  - injection Hi as ->. simpl. unfold has_id at 1.
    by rewrite bool_decide_eq_true_2.
  - simpl. unfold has_id at 1. rewrite bool_decide_eq_false_2.
    + by rewrite (IH i).
    + intros Heq. apply Ha. rewrite Heq.
      apply list_elem_of_fmap. exists d. split; [done|].
      by eapply list_elem_of_lookup_2.
Qed.
End MongoWrites.

(** X20: on the document store [insert_many] refuses an empty list and
    changes nothing; a non-empty list is appended to the bucket in order,
    every event as a new document with a fresh [_id]: the count of the
    bucket grows by the length of the list, the new documents carry the
    intervals and payloads of the events, the ids stay distinct, and the
    other buckets are untouched. *)
Theorem mongo_insert_many_spec {Data} (m : MongoDBStorage.t Data)
    (bucket_id : string) (events : list (Event.t bson.id Data)) :
  MongoDBStorage.insert_many m bucket_id []
  = (Raise (Exception "documents must be a non-empty list"), m)
  ∧ (events ≠ [] → mongo_wf m bucket_id →
     ∃ m',
       MongoDBStorage.insert_many m bucket_id events = (Ok tt, m')
       ∧ MongoDBStorage.get_eventcount m' bucket_id None None
         = MongoDBStorage.get_eventcount m bucket_id None None
           + Z.of_nat (length events)
       ∧ take (length (MongoDBStorage.collection m bucket_id))
           (MongoDBStorage.collection m' bucket_id)
         = MongoDBStorage.collection m bucket_id
       ∧ Event.content <$>
           (MongoDBStorage.to_event <$>
              drop (length (MongoDBStorage.collection m bucket_id))
                (MongoDBStorage.collection m' bucket_id))
         = Event.content <$> events
       ∧ mongo_wf m' bucket_id
       ∧ ∀ b, b ≠ bucket_id →
              MongoDBStorage.collection m' b = MongoDBStorage.collection m b).
Proof.
  split; [done|]. intros Hne [Hnd Hoid].
  destruct events as [|e events]; [done|]. clear Hne.
  set (evs := e :: events).
  set (new := MongoDBStorage.to_docs (MongoDBStorage.next_oid m) evs).
  set (m' := MongoDBStorage.set_events
               (<[bucket_id := MongoDBStorage.collection m bucket_id ++ new]>
                  (MongoDBStorage.db_events m))
               (MongoDBStorage.next_oid m + N.of_nat (length evs))%N m).
  exists m'. split; [reflexivity|].
  assert (Hcoll : MongoDBStorage.collection m' bucket_id
                  = MongoDBStorage.collection m bucket_id ++ new).
  { unfold m'. rewrite collection_set_events. by rewrite decide_True. }
  rewrite !get_eventcount_all, Hcoll.
  split; [rewrite length_app; unfold new; rewrite to_docs_length; lia|].
  split; [by rewrite take_app_length|].
  split; [rewrite drop_app_length; apply to_docs_content|].
  split.
  - unfold mongo_wf. rewrite Hcoll. split.
    + rewrite fmap_app. apply NoDup_app. split; [done|].
      split; [|apply to_docs_nodup].
      intros i Hi Hi'.
      apply list_elem_of_fmap in Hi as (d & -> & Hd).
      apply list_elem_of_fmap in Hi' as (d' & Heq & Hd').
      destruct (Hoid d Hd) as (n & Hn & Hlt).
      destruct (to_docs_ids _ _ _ Hd') as (n' & Hn' & Hr).
      rewrite Hn, Hn' in Heq. injection Heq as ->. lia.
    + intros d Hd. unfold m'. simpl. apply elem_of_app in Hd as [Hd|Hd].
      * destruct (Hoid d Hd) as (n & Hn & Hlt). exists n. split; [done|lia].
      * destruct (to_docs_ids _ _ _ Hd) as (n & Hn & Hr).
        exists n. split; [done|exact (proj2 Hr)].
  - intros b Hb. unfold m'. rewrite collection_set_events.
    by rewrite decide_False.
Qed.

Lemma mongo_insert_many_spec_witness :
  let e : Event.t bson.id string := Event.make None 300 7 "{x}"%string in
  ([e] ≠ [] ∧ mongo_wf Sample.mongo1 "b1")
  ∧ ∃ m',
      MongoDBStorage.insert_many Sample.mongo1 "b1" [e] = (Ok tt, m')
      ∧ MongoDBStorage.get_eventcount m' "b1" None None
        = MongoDBStorage.get_eventcount Sample.mongo1 "b1" None None
          + Z.of_nat (length [e])
      ∧ take (length (MongoDBStorage.collection Sample.mongo1 "b1"))
          (MongoDBStorage.collection m' "b1")
        = MongoDBStorage.collection Sample.mongo1 "b1"
      ∧ Event.content <$>
          (MongoDBStorage.to_event <$>
             drop (length (MongoDBStorage.collection Sample.mongo1 "b1"))
               (MongoDBStorage.collection m' "b1"))
        = Event.content <$> [e]
      ∧ mongo_wf m' "b1"
      ∧ ∀ b, b ≠ "b1"%string →
             MongoDBStorage.collection m' b
             = MongoDBStorage.collection Sample.mongo1 b.
Proof.
  intros e.
  assert (H1 : [e] ≠ []) by discriminate.
  assert (H2 : mongo_wf Sample.mongo1 "b1").
  { split; [compute_done|]. vm_compute. intros d Hd.
    apply list_elem_of_In in Hd.
    destruct Hd as [<-|[<-|[]]]; eexists; (split; [reflexivity|reflexivity]). }
  split; [done|].
  exact (proj2 (mongo_insert_many_spec Sample.mongo1 "b1" [e]) H1 H2).
Defined.

(** X21: on the document store, with distinct [_id]s, [delete] on the
    [_id] of a stored event, given as an object id or as its text,
    returns [True] and removes that document and no other; [get_event]
    no longer finds it. *)
Theorem mongo_delete_present {Data} (m : MongoDBStorage.t Data)
    (bucket_id : string) (i : nat) (d : EventDoc.t Data) (oid : bson.id) :
  NoDup (EventDoc._id <$> MongoDBStorage.collection m bucket_id) →
  MongoDBStorage.collection m bucket_id !! i = Some d →
  bson.to_ObjectId oid = EventDoc._id d →
  ∃ m',
    MongoDBStorage.delete m bucket_id oid = (true, m')
    ∧ MongoDBStorage.collection m' bucket_id
      = base.delete i (MongoDBStorage.collection m bucket_id)
    ∧ MongoDBStorage.get_event m' bucket_id (EventDoc._id d) = None
    ∧ ∀ b, b ≠ bucket_id →
           MongoDBStorage.collection m' b = MongoDBStorage.collection m b.
Proof.
  intros Hnd Hi Hoid. eexists. unfold MongoDBStorage.delete.
  rewrite Hoid, (delete_one_unique _ i d Hnd Hi). simpl.
  split; [reflexivity|].
  rewrite collection_set_events, decide_True by done.
  split; [done|]. split.
  - unfold MongoDBStorage.get_event.
    rewrite collection_set_events, decide_True by done.
    destruct (filter_unique (λ d', EventDoc._id d' = EventDoc._id d)
                (MongoDBStorage.collection m bucket_id) i d Hi eq_refl)
      as (_ & _ & ->); [|done].
    intros j y Hj Hy. by eapply nodup_oid_lookup.
  - intros b Hb. rewrite collection_set_events. by rewrite decide_False.
Qed.

Lemma mongo_delete_present_witness :
  let d : EventDoc.t string :=
    EventDoc.make (bson.ObjectId 0) None 100 10 "{}"%string in
  (NoDup (EventDoc._id <$> MongoDBStorage.collection Sample.mongo1 "b1")
   ∧ MongoDBStorage.collection Sample.mongo1 "b1" !! 0%nat = Some d
   ∧ bson.to_ObjectId (bson.Str 0) = EventDoc._id d)
  ∧ ∃ m',
      MongoDBStorage.delete Sample.mongo1 "b1" (bson.Str 0) = (true, m')
      ∧ MongoDBStorage.collection m' "b1"
        = base.delete 0%nat (MongoDBStorage.collection Sample.mongo1 "b1")
      ∧ MongoDBStorage.get_event m' "b1" (EventDoc._id d) = None
      ∧ ∀ b, b ≠ "b1"%string →
             MongoDBStorage.collection m' b
             = MongoDBStorage.collection Sample.mongo1 b.
Proof.
  intros d.
  assert (H1 : NoDup (EventDoc._id <$>
                        MongoDBStorage.collection Sample.mongo1 "b1"))
    by compute_done.
  assert (H2 : MongoDBStorage.collection Sample.mongo1 "b1" !! 0%nat = Some d)
    by reflexivity.
  assert (H3 : bson.to_ObjectId (bson.Str 0) = EventDoc._id d)
    by reflexivity.
  split; [done|].
  exact (mongo_delete_present Sample.mongo1 "b1" 0 d (bson.Str 0) H1 H2 H3).
Defined.

(** X22: on the document store, with distinct [_id]s, [replace] on the
    object id of a stored event rewrites that document in place and keeps
    its [_id]; [get_event] on the id then returns the new timestamp,
    duration and data, and the other buckets are untouched. *)
Theorem mongo_replace_present {Data} (m : MongoDBStorage.t Data)
    (bucket_id : string) (i : nat) (d : EventDoc.t Data)
    (event : Event.t bson.id Data) :
  NoDup (EventDoc._id <$> MongoDBStorage.collection m bucket_id) →
  MongoDBStorage.collection m bucket_id !! i = Some d →
  ∃ m',
    MongoDBStorage.replace m bucket_id (EventDoc._id d) event
    = ((true, Event.set_id (Some (EventDoc._id d)) event), m')
    ∧ MongoDBStorage.collection m' bucket_id
      = <[i := EventDoc.make (EventDoc._id d) (Event.id event)
                 (Event.timestamp event) (Event.duration event)
                 (Event.data event)]>
          (MongoDBStorage.collection m bucket_id)
    ∧ MongoDBStorage.get_event m' bucket_id (EventDoc._id d)
      = Some (Event.make (Some (bson.str (EventDoc._id d)))
                (Event.timestamp event) (Event.duration event)
                (Event.data event))
    ∧ ∀ b, b ≠ bucket_id →
           MongoDBStorage.collection m' b = MongoDBStorage.collection m b.
Proof.
  intros Hnd Hi. eexists. unfold MongoDBStorage.replace.
  rewrite bool_decide_eq_true_2.
  2:{ apply Exists_exists. exists d. split.
      - by eapply list_elem_of_lookup_2.
      - by apply bool_decide_eq_true. }
  split; [reflexivity|].
  rewrite collection_set_events, decide_True by done.
  rewrite (replace_one_insert event _ i d Hnd Hi).
  split; [done|]. split.
  - unfold MongoDBStorage.get_event.
    rewrite collection_set_events, decide_True by done.
    set (new := MongoDBStorage.to_doc (EventDoc._id d) event).
    destruct (filter_unique (λ d', EventDoc._id d' = EventDoc._id d)
                (<[i := new]> (MongoDBStorage.collection m bucket_id)) i new)
      as (-> & _); try done.
    + apply list_lookup_insert_eq. by eapply lookup_lt_Some.
    + intros j y Hj Hy.
      destruct (decide (j = i)) as [->|Hji]; [done|].
      rewrite list_lookup_insert_ne in Hj by done.
      by eapply nodup_oid_lookup.
  - intros b Hb. rewrite collection_set_events. by rewrite decide_False.
Qed.

Lemma mongo_replace_present_witness :
  let d : EventDoc.t string :=
    EventDoc.make (bson.ObjectId 0) None 100 10 "{}"%string in
  let event : Event.t bson.id string := Event.make None 120 3 "{y}"%string in
  (NoDup (EventDoc._id <$> MongoDBStorage.collection Sample.mongo1 "b1")
   ∧ MongoDBStorage.collection Sample.mongo1 "b1" !! 0%nat = Some d)
  ∧ ∃ m',
      MongoDBStorage.replace Sample.mongo1 "b1" (EventDoc._id d) event
      = ((true, Event.set_id (Some (EventDoc._id d)) event), m')
      ∧ MongoDBStorage.collection m' "b1"
        = <[0%nat := EventDoc.make (EventDoc._id d) (Event.id event)
                       (Event.timestamp event) (Event.duration event)
                       (Event.data event)]>
            (MongoDBStorage.collection Sample.mongo1 "b1")
      ∧ MongoDBStorage.get_event m' "b1" (EventDoc._id d)
        = Some (Event.make (Some (bson.str (EventDoc._id d)))
                  (Event.timestamp event) (Event.duration event)
                  (Event.data event))
      ∧ ∀ b, b ≠ "b1"%string →
             MongoDBStorage.collection m' b
             = MongoDBStorage.collection Sample.mongo1 b.
Proof.
  intros d event.
  assert (H1 : NoDup (EventDoc._id <$>
                        MongoDBStorage.collection Sample.mongo1 "b1"))
    by compute_done.
  assert (H2 : MongoDBStorage.collection Sample.mongo1 "b1" !! 0%nat = Some d)
    by reflexivity.
  split; [done|].
  exact (mongo_replace_present Sample.mongo1 "b1" 0 d event H1 H2).
Defined.

(** * Users *)

Lemma filter_filter_other {A} (P Q : A → Prop) `{∀ x, Decision (P x)}
    `{∀ x, Decision (Q x)} (l : list A) :
  (∀ x, P x → Q x) → filter P (filter Q l) = filter P l.
Proof.
  intros HPQ. induction l as [|a l IH]; [done|].
  rewrite (filter_cons Q). destruct (decide (Q a)) as [HQ|HQ].
  - rewrite !filter_cons. destruct (decide (P a)); by rewrite IH.
  - rewrite IH. rewrite filter_cons_False; [done|]. intros HP. by apply HQ, HPQ.
Qed.

(** X23: on the relational backend [save_user] deletes before it reads the
    other fields.  Without ["email"] it raises [KeyError] and changes
    nothing; with ["email"] but without one of ["device_id"], ["name"],
    ["access_token"], ["refresh_token"] it raises [KeyError] for a missing
    field after the record stored under that email has been deleted, so
    that no record with the email is left; the records of other emails
    are untouched. *)
Theorem peewee_save_user_missing_field (isoformat : datetime → string)
    (now : datetime) (self : PeeweeStorage.t)
    (user_data : gmap string string) :
  (user_data !! "email" = None →
   PeeweeUsers.save_user isoformat now self user_data
   = (Raise (KeyError "email"), self))
  ∧ (∀ key,
       user_data !! "email" = Some key →
       user_data !! "device_id" = None ∨ user_data !! "name" = None
       ∨ user_data !! "access_token" = None
       ∨ user_data !! "refresh_token" = None →
       ∃ missing self',
         PeeweeUsers.save_user isoformat now self user_data
         = (Raise (KeyError missing), self')
         ∧ user_data !! missing = None
         ∧ filter (λ u, UserModel.email u = key)
             (PeeweeStorage.users_table self') = []
         ∧ ∀ k, k ≠ key →
                filter (λ u, UserModel.email u = k)
                  (PeeweeStorage.users_table self')
                = filter (λ u, UserModel.email u = k)
                    (PeeweeStorage.users_table self)).
Proof.
  split.
  - intros He. unfold PeeweeUsers.save_user, getitem. by rewrite He.
  - intros key He Hmiss. unfold PeeweeUsers.save_user, getitem. rewrite He.
    assert (Hframe : ∀ k, k ≠ key →
              filter (λ u, UserModel.email u = k)
                (filter (λ u, UserModel.email u ≠ key)
                   (PeeweeStorage.users_table self))
              = filter (λ u, UserModel.email u = k)
                  (PeeweeStorage.users_table self)).
    { intros k Hk. apply filter_filter_other. intros u ->. done. }
    destruct (user_data !! "device_id") as [d|] eqn:Hd; simpl.
    2:{ exists "device_id"%string. eexists. split; [reflexivity|].
        split; [done|]. simpl. split; [apply filter_filter_not|done]. }
    destruct (user_data !! "name") as [n|] eqn:Hn; simpl.
    2:{ exists "name"%string. eexists. split; [reflexivity|].
        split; [done|]. simpl. split; [apply filter_filter_not|done]. }
    destruct (user_data !! "access_token") as [a|] eqn:Ha; simpl.
    2:{ exists "access_token"%string. eexists. split; [reflexivity|].
        split; [done|]. simpl. split; [apply filter_filter_not|done]. }
    destruct (user_data !! "refresh_token") as [r|] eqn:Hr; simpl.
    2:{ exists "refresh_token"%string. eexists. split; [reflexivity|].
        split; [done|]. simpl. split; [apply filter_filter_not|done]. }
    by destruct Hmiss as [?|[?|[?|?]]].
Qed.

Lemma peewee_save_user_missing_field_witness :
  let u1 := Sample.user "Ann" "t1" in
  let u2 : gmap string string := base.delete "name" u1 in
  let self := (PeeweeUsers.save_user Sample.isoformat 10 Sample.peewee1 u1).2 in
  (u2 !! "email" = Some "a@example.org"%string
   ∧ (u2 !! "device_id" = None ∨ u2 !! "name" = None
      ∨ u2 !! "access_token" = None ∨ u2 !! "refresh_token" = None))
  ∧ length (PeeweeStorage.users_table self) = 1%nat
  ∧ ∃ missing self',
      PeeweeUsers.save_user Sample.isoformat 20 self u2
      = (Raise (KeyError missing), self')
      ∧ u2 !! missing = None
      ∧ filter (λ u, UserModel.email u = "a@example.org"%string)
          (PeeweeStorage.users_table self') = []
      ∧ ∀ k, k ≠ "a@example.org"%string →
             filter (λ u, UserModel.email u = k)
               (PeeweeStorage.users_table self')
             = filter (λ u, UserModel.email u = k)
                 (PeeweeStorage.users_table self).
Proof.
  intros u1 u2 self.
  assert (H1 : u2 !! "email" = Some "a@example.org"%string) by reflexivity.
  assert (H2 : u2 !! "device_id" = None ∨ u2 !! "name" = None
               ∨ u2 !! "access_token" = None ∨ u2 !! "refresh_token" = None)
    by (right; left; reflexivity).
  split; [done|]. split; [reflexivity|].
  exact (proj2 (peewee_save_user_missing_field Sample.isoformat 20 self u2)
           "a@example.org"%string H1 H2).
Defined.

(** X24: on the relational backend a [save_user] with all its fields
    succeeds, returns the dictionary with the instant of the call under
    ["last_used_at"], and stores one record under a new id; [get_user] by
    that email returns it, and [get_user] by any other email answers as
    before. *)
Theorem peewee_save_user_get_user (isoformat : datetime → string)
    (now : datetime) (self : PeeweeStorage.t)
    (user_data : gmap string string)
    (key device_id name access_token refresh_token : string) :
  user_data !! "email" = Some key →
  user_data !! "device_id" = Some device_id →
  user_data !! "name" = Some name →
  user_data !! "access_token" = Some access_token →
  user_data !! "refresh_token" = Some refresh_token →
  ∃ self',
    PeeweeUsers.save_user isoformat now self user_data
    = (Ok (<["last_used_at" := isoformat now]> user_data), self')
    ∧ (∀ f, f !! "email" = Some key →
            PeeweeDirectory.get_user self' f
            = Ok (inl (UserModel.make (PeeweeStorage.users_seq self)
                         device_id name key access_token refresh_token
                         (Some now))))
    ∧ (∀ f k, f !! "email" = Some k → k ≠ key →
              PeeweeDirectory.get_user self' f
              = PeeweeDirectory.get_user self f)
    ∧ PeeweeStorage.events_table self' = PeeweeStorage.events_table self.
Proof.
  intros He Hd Hn Ha Hr. eexists.
  unfold PeeweeUsers.save_user, getitem. rewrite He, Hd, Hn, Ha, Hr. simpl.
  split; [reflexivity|]. split; [|split; [|done]].
  - intros f Hf. unfold PeeweeDirectory.get_user, getitem. rewrite Hf. simpl.
    unfold PeeweeUsers._get_user_by_email. simpl.
    rewrite filter_app, filter_filter_not.
    by rewrite filter_cons_True.
  - intros f k Hf Hk. unfold PeeweeDirectory.get_user, getitem.
    rewrite Hf. simpl. unfold PeeweeUsers._get_user_by_email. simpl.
    rewrite filter_app, filter_cons_False by (simpl; congruence).
    rewrite filter_nil, app_nil_r.
    rewrite (filter_filter_other (λ u, UserModel.email u = k)
               (λ u, UserModel.email u ≠ key)); [done|].
    intros u ->. done.
Qed.

Lemma peewee_save_user_get_user_witness :
  let u := Sample.user "Ann" "t1" in
  let key := "a@example.org"%string in
  (u !! "email" = Some key ∧ u !! "device_id" = Some "d1"%string
   ∧ u !! "name" = Some "Ann"%string ∧ u !! "access_token" = Some "t1"%string
   ∧ u !! "refresh_token" = Some "r"%string)
  ∧ ∃ self',
      PeeweeUsers.save_user Sample.isoformat 10 Sample.peewee1 u
      = (Ok (<["last_used_at" := Sample.isoformat 10]> u), self')
      ∧ (∀ f, f !! "email" = Some key →
              PeeweeDirectory.get_user self' f
              = Ok (inl (UserModel.make
                           (PeeweeStorage.users_seq Sample.peewee1)
                           "d1" "Ann" key "t1" "r" (Some 10))))
      ∧ (∀ f k, f !! "email" = Some k → k ≠ key →
                PeeweeDirectory.get_user self' f
                = PeeweeDirectory.get_user Sample.peewee1 f)
      ∧ PeeweeStorage.events_table self'
        = PeeweeStorage.events_table Sample.peewee1.
Proof.
  intros u key.
  split; [by repeat split|].
  exact (peewee_save_user_get_user Sample.isoformat 10 Sample.peewee1 u key
           "d1" "Ann" "t1" "r" eq_refl eq_refl eq_refl eq_refl eq_refl).
Defined.

(** X25: on the document store [save_user] without ["email"] raises
    [KeyError] and changes nothing; with it, the call returns the
    dictionary, which becomes the only record with that email, and the
    records with another email, or with none, are kept in their order. *)
Theorem mongo_save_user_spec {Data} (m : MongoDBStorage.t Data)
    (user_data : gmap string string) :
  (user_data !! "email" = None →
   MongoDBStorage.save_user m user_data = (Raise (KeyError "email"), m))
  ∧ (∀ key,
       user_data !! "email" = Some key →
       ∃ m',
         MongoDBStorage.save_user m user_data = (Ok user_data, m')
         ∧ filter (λ u, u !! "email" = Some key) (MongoDBStorage.db_users m')
           = [user_data]
         ∧ filter (λ u, u !! "email" ≠ Some key) (MongoDBStorage.db_users m')
           = filter (λ u, u !! "email" ≠ Some key) (MongoDBStorage.db_users m)
         ∧ MongoDBStorage.db_events m' = MongoDBStorage.db_events m).
Proof.
  split.
  - intros He. unfold MongoDBStorage.save_user, getitem. by rewrite He.
  - intros key He. eexists. unfold MongoDBStorage.save_user, getitem.
    rewrite He. split; [reflexivity|]. simpl.
    rewrite !filter_app, filter_filter_not.
    rewrite filter_cons_True by done.
    rewrite (filter_cons_False (λ u, u !! "email" ≠ Some key))
      by (by intros ?).
    rewrite !filter_nil, app_nil_r. split; [done|]. split; [|done].
    by apply filter_filter_other.
Qed.

Lemma mongo_save_user_spec_witness :
  let u := Sample.user "Ann" "t1" in
  u !! "email" = Some "a@example.org"%string
  ∧ ∃ m',
      MongoDBStorage.save_user Sample.mongo1 u = (Ok u, m')
      ∧ filter (λ u, u !! "email" = Some "a@example.org"%string)
          (MongoDBStorage.db_users m') = [u]
      ∧ filter (λ u, u !! "email" ≠ Some "a@example.org"%string)
          (MongoDBStorage.db_users m')
        = filter (λ u, u !! "email" ≠ Some "a@example.org"%string)
            (MongoDBStorage.db_users Sample.mongo1)
      ∧ MongoDBStorage.db_events m' = MongoDBStorage.db_events Sample.mongo1.
Proof.
  intros u.
  assert (H : u !! "email" = Some "a@example.org"%string) by reflexivity.
  split; [exact H|].
  exact (proj2 (mongo_save_user_spec Sample.mongo1 u)
           "a@example.org"%string H).
Defined.

(** * Bulk insertion as repeated insertion *)

Section PeeweeFold.
Import PeeweeStorage.
Context {Data : Type} (json_dumps : Data → string).

Lemma set_events_set_events (tbl tbl' : list EventModel.t) (seq seq' : Z)
    (self : t) :
  set_events tbl' seq' (set_events tbl seq self) = set_events tbl' seq' self.
Proof. done. Qed.

Lemma insert_one_fold (self : t) (bucket_id : string) (k : Z)
    (events : list (Event.t Z Data)) :
  bucket_keys self !! bucket_id = Some k →
  Forall (λ e, Event.id e = None) events →
  foldl (λ st e, (insert_one json_dumps st bucket_id e).2) self events
  = set_events
      (events_table self
       ++ number_rows (events_seq self) (from_event json_dumps k <$> events))
      (events_seq self + Z.of_nat (length events)) self.
Proof.
  intros Hk Hids. revert self Hk.
  induction Hids as [|e events He Hids IH]; intros self Hk.
  - simpl. rewrite app_nil_r, Z.add_0_r. by rewrite peewee_set_events_id.
  - cbn [foldl]. rewrite (insert_one_fresh _ _ _ k) by done.
    cbn [snd]. rewrite IH by done.
    destruct self. unfold set_events. simpl. f_equal.
    + by rewrite <- app_assoc.
    + lia.
Qed.
End PeeweeFold.

(** X26: on the relational backend, for events that carry no id,
    [insert_many] leaves the store that inserting them one after the
    other with [insert_one] leaves: same rows, same ids, in the order of
    the list, whatever the number of chunks; and the keys of the table
    stay those the sequence has handed out. *)
Theorem peewee_insert_many_as_insert_one {Data} (json_dumps : Data → string)
    (self : PeeweeStorage.t) (bucket_id : string) (k : Z)
    (events : list (Event.t Z Data)) :
  PeeweeStorage.bucket_keys self !! bucket_id = Some k →
  Forall (λ e, Event.id e = None) events →
  PeeweeStorage.insert_many json_dumps self bucket_id events
  = (Ok tt,
     foldl (λ st e, (PeeweeStorage.insert_one json_dumps st bucket_id e).2)
       self events)
  ∧ (peewee_wf self →
     peewee_wf (PeeweeStorage.insert_many json_dumps self bucket_id events).2).
Proof.
  intros Hk Hids.
  assert (Hmany : PeeweeStorage.insert_many json_dumps self bucket_id events
                  = (Ok tt,
                     foldl (λ st e, (PeeweeStorage.insert_one json_dumps st
                                       bucket_id e).2) self events)).
  { rewrite (insert_one_fold _ _ _ k) by done.
    unfold PeeweeStorage.insert_many.
    rewrite (filter_none (λ e, PeeweeStorage.has_id e = true)).
    2:{ intros e He Hhas. apply bool_decide_eq_true in Hhas as [i Hi].
        rewrite Forall_forall in Hids. rewrite (Hids e He) in Hi. done. }
    simpl. unfold getitem. rewrite Hk.
    rewrite (filter_all (λ e, PeeweeStorage.has_id e = false)).
    2:{ intros e He. apply bool_decide_eq_false. intros [i Hi].
        rewrite Forall_forall in Hids. rewrite (Hids e He) in Hi. done. }
    by rewrite insert_chunks_chunks, length_fmap. }
  split; [exact Hmany|].
  rewrite Hmany. cbn [snd]. clear Hmany. revert self Hk.
  induction Hids as [|e events He Hids IH]; intros self Hk Hwf; [done|].
  cbn [foldl]. apply IH.
  - by rewrite (insert_one_fresh _ _ _ k).
  - by apply (insert_one_wf _ _ _ k).
Qed.

Lemma peewee_insert_many_as_insert_one_witness :
  let events : list (Event.t Z string) := [Sample.E1; Sample.E2] in
  (PeeweeStorage.bucket_keys Sample.peewee0 !! "b1" = Some 1
   ∧ Forall (λ e, Event.id e = None) events)
  ∧ PeeweeStorage.insert_many Sample.dumps Sample.peewee0 "b1" events
    = (Ok tt,
       foldl (λ st e, (PeeweeStorage.insert_one Sample.dumps st "b1" e).2)
         Sample.peewee0 events)
  ∧ (peewee_wf Sample.peewee0 →
     peewee_wf (PeeweeStorage.insert_many Sample.dumps Sample.peewee0 "b1"
                  events).2).
Proof.
  intros events.
  assert (H1 : PeeweeStorage.bucket_keys Sample.peewee0 !! "b1" = Some 1)
    by reflexivity.
  assert (H2 : Forall (λ e, Event.id e = None) events)
    by (repeat constructor).
  split; [done|].
  exact (peewee_insert_many_as_insert_one Sample.dumps Sample.peewee0 "b1" 1
           events H1 H2).
Defined.
